(** * nanobot/agent/tools/browse.py : the [web_browse] tool

    A shallow embedding of [WebBrowseTool]: the lazily created browser
    session, the five-way action dispatcher with its outermost
    exception boundary, the readable-content pipeline with its
    HTML-to-markdown pass, and the payloads handed to [json.dumps].
    A result is the dict that the source serializes, not the serialized
    text; keyword arguments have the types that the schema declares. *)

From Stdlib Require Import Bool Arith ZArith List String Ascii Lia DecimalString.
Import ListNotations.
Open Scope string_scope.
Open Scope nat_scope.

(** ** Python strings

    A Python [str] is modelled as a [string]; one [ascii] stands for one
    character (code points 0..255). *)

Module PyStr.

Definition nl : string := String (ascii_of_nat 10) EmptyString.

(** [str.isspace] on a single character. *)
Definition is_space (c : ascii) : bool :=
  let n := nat_of_ascii c in
  ((9 <=? n) && (n <=? 13)) || ((28 <=? n) && (n <=? 32))
  || (n =? 133) || (n =? 160).

(** [str.lower] on a single character (ASCII letters). *)
Definition lower (c : ascii) : ascii :=
  let n := nat_of_ascii c in
  if (65 <=? n) && (n <=? 90) then ascii_of_nat (n + 32) else c.

(** [s[:n]] for [0 <= n]. *)
Fixpoint take (n : nat) (s : string) : string :=
  match n, s with
  | S n', String c s' => String c (take n' s')
  | _, _ => EmptyString
  end.

(** [s[n:]] for [0 <= n]. *)
Fixpoint drop (n : nat) (s : string) : string :=
  match n, s with
  | S n', String _ s' => drop n' s'
  | _, _ => s
  end.

(** [s[:n]] for any Python integer [n]: a negative bound counts from
    the end of the string. *)
Definition slice_to (n : Z) (s : string) : string :=
  if (0 <=? n)%Z then take (Z.to_nat n) s
  else take (length s - Z.to_nat (- n)) s.

Fixpoint lstrip (s : string) : string :=
  match s with
  | String c s' => if is_space c then lstrip s' else s
  | EmptyString => EmptyString
  end.

(** Drops trailing whitespace: a character is kept when something
    that is kept follows it, or when it is not whitespace. *)
Fixpoint rstrip (s : string) : string :=
  match s with
  | String c s' =>
      match rstrip s' with
      | EmptyString => if is_space c then EmptyString else String c EmptyString
      | r => String c r
      end
  | EmptyString => EmptyString
  end.

(** [s.strip()] *)
Definition strip (s : string) : string := rstrip (lstrip s).

(** [s.startswith(p)] *)
Fixpoint startswith (p s : string) : bool :=
  match p, s with
  | EmptyString, _ => true
  | String a p', String b s' => Ascii.eqb a b && startswith p' s'
  | String _ _, EmptyString => false
  end.

(** [s.endswith(p)] *)
Definition endswith (p s : string) : bool :=
  (length p <=? length s) && String.eqb (drop (length s - length p) s) p.

(** [p in s] *)
Fixpoint contains (p s : string) : bool :=
  startswith p s ||
  match s with
  | String _ s' => contains p s'
  | EmptyString => false
  end.

(** [s.split("\n")] *)
Fixpoint lines (s : string) : list string :=
  match s with
  | EmptyString => [EmptyString]
  | String c s' =>
      if Ascii.eqb c (ascii_of_nat 10) then EmptyString :: lines s'
      else match lines s' with
           | l :: ls => String c l :: ls
           | [] => [String c EmptyString]
           end
  end.

(** [c * n] for a one-character string. *)
Fixpoint repeat_char (c : ascii) (n : nat) : string :=
  match n with
  | O => EmptyString
  | S n' => String c (repeat_char c n')
  end.

(** [str(n)] for a Python integer. *)
Definition of_Z (n : Z) : string := NilZero.string_of_int (Z.to_int n).

(** A Python string is truthy when it is not empty. *)
Definition truthy (s : string) : bool :=
  match s with EmptyString => false | _ => true end.

End PyStr.

(** ** The fragment of Python's [re] that the tool uses

    Patterns are kept as syntax trees so that each one can be read
    against the pattern string in the source.  Repetition only occurs
    over single-character classes in those patterns, which keeps the
    backtracking matcher structurally recursive. *)

Module Re.

Inductive regex : Type :=
| Chr (c : ascii)                              (* a literal character *)
| Cls (p : ascii -> bool)                      (* a character class *)
| Cat (r1 r2 : regex)                          (* r1 r2 *)
| Alt (r1 r2 : regex)                          (* r1|r2 *)
| Rep (lo : nat) (greedy : bool) (p : ascii -> bool)
                                               (* cls{lo,} or cls{lo,}? *)
| Opt (r : regex)                              (* r? *)
| Grp (n : nat) (r : regex)                    (* capture group n *)
| Ref (n : nat).                               (* backreference \n *)

(** Literal text as a pattern. *)
Fixpoint lit (s : string) : regex :=
  match s with
  | EmptyString => Rep 0 true (fun _ => false)
  | String c EmptyString => Chr c
  | String c s' => Cat (Chr c) (lit s')
  end.

Definition captures := list (nat * string).

Fixpoint group (n : nat) (cs : captures) : string :=
  match cs with
  | [] => EmptyString
  | (m, v) :: cs' => if Nat.eqb n m then v else group n cs'
  end.

Definition chr_eq (icase : bool) (a b : ascii) : bool :=
  if icase then Ascii.eqb (PyStr.lower a) (PyStr.lower b) else Ascii.eqb a b.

(** Consume the text [p] from the front of [s]. *)
Fixpoint eat (icase : bool) (p s : string) : option string :=
  match p, s with
  | EmptyString, _ => Some s
  | String a p', String b s' => if chr_eq icase a b then eat icase p' s' else None
  | String _ _, EmptyString => None
  end.

Section Matcher.
Context {R : Type}.
Variable icase : bool.

(** [cls{lo,}] at the front of [s]: the greedy form tries the longest
    run first and gives characters back one at a time; the lazy
    form tries the shortest run first. *)
Fixpoint rep (p : ascii -> bool) (greedy : bool) (lo : nat) (s : string)
         (k : string -> option R) : option R :=
  let stop := match lo with O => k s | S _ => None end in
  let more :=
    match s with
    | String c s' => if p c then rep p greedy (Nat.pred lo) s' k else None
    | EmptyString => None
    end in
  if greedy
  then match more with Some r => Some r | None => stop end
  else match stop with Some r => Some r | None => more end.

(** Backtracking match of [r] at the front of [s]; [k] receives the
    rest of the input and the groups captured so far, and a [None]
    from [k] makes the matcher try its next alternative. *)
Fixpoint run (r : regex) (s : string) (cs : captures)
         (k : string -> captures -> option R) : option R :=
  match r with
  | Chr c =>
      match s with
      | String d s' => if chr_eq icase c d then k s' cs else None
      | EmptyString => None
      end
  | Cls p =>
      match s with
      | String d s' => if p d then k s' cs else None
      | EmptyString => None
      end
  | Cat r1 r2 => run r1 s cs (fun s1 cs1 => run r2 s1 cs1 k)
  | Alt r1 r2 =>
      match run r1 s cs k with
      | Some x => Some x
      | None => run r2 s cs k
      end
  | Rep lo greedy p => rep p greedy lo s (fun s' => k s' cs)
  | Opt r1 =>
      match run r1 s cs k with
      | Some x => Some x
      | None => k s cs
      end
  | Grp n r1 =>
      run r1 s cs
          (fun s1 cs1 => k s1 ((n, PyStr.take (length s - length s1) s) :: cs1))
  | Ref n =>
      match eat icase (group n cs) s with
      | Some s' => k s' cs
      | None => None
      end
  end.
End Matcher.

(** [pattern.match] at the front of [s]: the number of characters
    matched and the captured groups. *)
Definition match_at (icase : bool) (r : regex) (s : string) : option (nat * captures) :=
  run icase r s [] (fun s' cs => Some (length s - length s', cs)).

(** The scan of [re.sub]: [skip] counts the characters of the current
    match that are still to be passed over. *)
Fixpoint sub_scan (icase : bool) (r : regex) (repl : captures -> string)
         (s : string) (skip : nat) : string :=
  match s with
  | EmptyString =>
      match skip, match_at icase r EmptyString with
      | O, Some (_, cs) => repl cs
      | _, _ => EmptyString
      end
  | String c s' =>
      match skip with
      | S k => sub_scan icase r repl s' k
      | O =>
          match match_at icase r s with
          | Some (S n, cs) => repl cs ++ sub_scan icase r repl s' n
          | Some (O, cs) => repl cs ++ String c (sub_scan icase r repl s' 0)
          | None => String c (sub_scan icase r repl s' 0)
          end
      end
  end.

(** [re.sub(pattern, repl, s)], with [flags=re.I] when [icase] is set. *)
Definition sub (icase : bool) (r : regex) (repl : captures -> string) (s : string) : string :=
  sub_scan icase r repl s 0.

(** Character classes of the patterns. *)
Definition any (_ : ascii) : bool := true.
Definition space (c : ascii) : bool := PyStr.is_space c.
Definition none_of (l : list ascii) (c : ascii) : bool :=
  negb (existsb (Ascii.eqb c) l).
Definition one_of (l : list ascii) (c : ascii) : bool :=
  existsb (Ascii.eqb c) l.
Definition range (lo hi : ascii) (c : ascii) : bool :=
  (nat_of_ascii lo <=? nat_of_ascii c) && (nat_of_ascii c <=? nat_of_ascii hi).

(** A pattern written as the sequence of its parts. *)
Fixpoint seq (rs : list regex) : regex :=
  match rs with
  | [] => lit EmptyString
  | [r] => r
  | r :: rs' => Cat r (seq rs')
  end.

End Re.

(** ** Helpers imported from [nanobot.agent.tools.web] *)

Definition dquote : ascii := ascii_of_nat 34.
Definition squote : ascii := ascii_of_nat 39.
Definition gt : ascii := ">"%char.

(** Modelled from the spec: [_strip_tags] of [nanobot/agent/tools/web.py]
    is not part of the sources at hand.  The spec has it "strip all
    remaining tags": every [<...>] tag is deleted. *)
Definition _strip_tags (text : string) : string :=
  Re.sub false (Re.seq [Re.Chr "<"; Re.Rep 1 true (Re.none_of [gt]); Re.Chr gt])
         (fun _ => EmptyString) text.

(** Modelled from the spec: [_normalize] of [nanobot/agent/tools/web.py]
    is not part of the sources at hand.  The spec has it "normalize
    whitespace (collapse runs of whitespace, trim)": a run of blanks
    becomes one space, a run of three or more newlines becomes one empty
    line, and the ends are trimmed, so that the lines the markdown pass
    lays out are still lines afterwards. *)
Definition _normalize (text : string) : string :=
  let text := Re.sub false (Re.Rep 1 true (Re.one_of [" "%char; ascii_of_nat 9]))
                     (fun _ => " ") text in
  PyStr.strip
    (Re.sub false (Re.Rep 3 true (Re.one_of [ascii_of_nat 10]))
            (fun _ => PyStr.nl ++ PyStr.nl) text).

(** ** [WebBrowseTool._to_markdown] *)

(** [int(m[1])] for a captured run of decimal digits. *)
Definition int_of_digits (s : string) : nat :=
  (fix go (acc : nat) (s : string) : nat :=
     match s with
     | EmptyString => acc
     | String c s' => go (10 * acc + (nat_of_ascii c - 48)) s'
     end) 0 s.

Module Markdown.
Import Re.

(** [<a\s+[^>]*href=[QUOTE]([^QUOTE]+)[QUOTE][^>]*>([\s\S]*?)</a>],
    where QUOTE is either quotation mark. *)
Definition anchor_re : regex :=
  seq [lit "<a"; Rep 1 true space; Rep 0 true (none_of [gt]); lit "href=";
       Cls (one_of [dquote; squote]);
       Grp 1 (Rep 1 true (none_of [dquote; squote]));
       Cls (one_of [dquote; squote]);
       Rep 0 true (none_of [gt]); Chr gt;
       Grp 2 (Rep 0 false any); lit "</a>"].

(** [<h([1-6])[^>]*>([\s\S]*?)</h\1>] *)
Definition heading_re : regex :=
  seq [lit "<h"; Grp 1 (Cls (range "1" "6")); Rep 0 true (none_of [gt]); Chr gt;
       Grp 2 (Rep 0 false any); lit "</h"; Ref 1; Chr gt].

(** [<li[^>]*>([\s\S]*?)</li>] *)
Definition item_re : regex :=
  seq [lit "<li"; Rep 0 true (none_of [gt]); Chr gt;
       Grp 1 (Rep 0 false any); lit "</li>"].

(** [</(p|div|section|article)>] *)
Definition block_end_re : regex :=
  seq [lit "</";
       Grp 1 (Alt (lit "p") (Alt (lit "div") (Alt (lit "section") (lit "article"))));
       Chr gt].

(** [<(br|hr)\s*/?>] *)
Definition break_re : regex :=
  seq [Chr "<"; Grp 1 (Alt (lit "br") (lit "hr")); Rep 0 true space;
       Opt (Chr "/"); Chr gt].

(** [lambda m: f'[{_strip_tags(m[2])}]({m[1]})'] *)
Definition anchor_repl (m : captures) : string :=
  "[" ++ _strip_tags (group 2 m) ++ "](" ++ group 1 m ++ ")".

(** [lambda m: f'\n{"#" * int(m[1])} {_strip_tags(m[2])}\n'] *)
Definition heading_repl (m : captures) : string :=
  PyStr.nl ++ PyStr.repeat_char "#" (int_of_digits (group 1 m)) ++ " "
           ++ _strip_tags (group 2 m) ++ PyStr.nl.

(** [lambda m: f'\n- {_strip_tags(m[1])}'] *)
Definition item_repl (m : captures) : string :=
  PyStr.nl ++ "- " ++ _strip_tags (group 1 m).

Definition sub_anchors (text : string) : string := sub true anchor_re anchor_repl text.
Definition sub_headings (text : string) : string := sub true heading_re heading_repl text.
Definition sub_items (text : string) : string := sub true item_re item_repl text.
Definition sub_block_ends (text : string) : string :=
  sub true block_end_re (fun _ => PyStr.nl ++ PyStr.nl) text.
Definition sub_breaks (text : string) : string :=
  sub true break_re (fun _ => PyStr.nl) text.

(** The text as it stands after the five [re.sub] calls. *)
Definition substituted (html_str : string) : string :=
  let text := sub_anchors html_str in
  let text := sub_headings text in
  let text := sub_items text in
  let text := sub_block_ends text in
  let text := sub_breaks text in
  text.

End Markdown.

Definition _to_markdown (html_str : string) : string :=
  _normalize (_strip_tags (Markdown.substituted html_str)).

Definition sample_html : string :=
  "<article><h1>Title</h1><p>Hello <a href='http://x'>world</a></p></article>".


(** ** Payloads, exceptions and the upstream capability *)

(** The value handed to [json.dumps]; an object keeps its keys in the
    order of the dict literal. *)
#[local] Set Warnings "-register-all".
Inductive json : Type :=
| JNull
| JBool (b : bool)
| JInt (n : Z)
| JStr (s : string)
| JArr (items : list json)
| JObj (fields : list (string * json)).

(** A raised [Exception]; [str] is its message, [str(e)]. *)
Record exn : Type := Exception { str : string }.

Inductive outcome (A : Type) : Type :=
| Ret (a : A)
| Raise (e : exn).
Arguments Ret {A} a.
Arguments Raise {A} e.

(** The response that [page.goto] may return. *)
Record Response : Type := { status : Z }.

(** The [AsyncCamoufox] context manager: its launch options and, once
    [__aenter__] has succeeded, the browser it holds. *)
Record AsyncCamoufox (B : Type) : Type :=
  { headless : bool; browser : option B }.
Arguments headless {B} _.
Arguments browser {B} _.

(** What the tool calls but does not define: the browser engine, the
    readability extractor, the URL validator, the clock and the file
    system.  [World] is whatever those hold; every awaited call may
    raise. *)
Record Upstream : Type :=
  { World : Type;
    Browser : Type;
    Page : Type;
    Path : Type;
    camoufox_aenter : AsyncCamoufox Browser -> World -> outcome Browser * World;
    camoufox_aexit : AsyncCamoufox Browser -> World -> outcome unit * World;
    browser_new_page : Browser -> World -> outcome Page * World;
    page_goto : Page -> string -> string -> Z -> World -> outcome (option Response) * World;
    page_url : Page -> World -> string;
    page_title : Page -> World -> outcome string * World;
    page_content : Page -> World -> outcome string * World;
    page_screenshot : Page -> string -> bool -> World -> outcome unit * World;
    page_evaluate : Page -> string -> World -> outcome json * World;
    doc_summary : string -> outcome string;
    doc_title : string -> outcome string;
    _validate_url : string -> bool * string;
    time_time : World -> Z;
    path_div : Path -> string -> Path;
    path_str : Path -> string;
    path_mkdir : Path -> World -> outcome unit * World }.

(** The calls made on the browser capability, as a test double would
    record them; [Raised e] follows a call that raised [e]. *)
Inductive Call : Type :=
| CallLaunch (headless : bool)
| CallNewPage
| CallGoto (url wait_until : string) (timeout : Z)
| CallTitle
| CallContent
| CallScreenshot (path : string) (full_page : bool)
| CallEvaluate (script : string)
| CallShutdown
| Raised (e : exn).

Definition is_launch (c : Call) : bool :=
  match c with CallLaunch _ => true | _ => false end.

(** How many times the browser was launched. *)
Definition launches (cs : list Call) : nat := List.length (filter is_launch cs).
Arguments launches : simpl never.

(** The keyword arguments of [execute]; [None] is an argument that was
    not passed.  Each action reads its own and ignores the rest. *)
Record kwargs : Type :=
  { url : option string;
    waitUntil : option string;
    timeout : option Z;
    extractMode : option string;
    maxChars : option Z;
    filename : option string;
    script : option string }.

Definition no_kwargs : kwargs :=
  {| url := None; waitUntil := None; timeout := None; extractMode := None;
     maxChars := None; filename := None; script := None |}.

(** ** The declared parameters *)

Definition str_enum (vs : list string) : json := JArr (map JStr vs).

(** The [parameters] schema of the tool. *)
Definition parameters : json :=
  JObj
    [("type", JStr "object");
     ("properties",
      JObj
        [("action",
          JObj [("type", JStr "string");
                ("enum", str_enum ["navigate"; "get_content"; "screenshot";
                                   "execute_js"; "close"]);
                ("description", JStr "The browser action to perform")]);
         ("url",
          JObj [("type", JStr "string");
                ("description", JStr "URL to navigate to (navigate action)")]);
         ("waitUntil",
          JObj [("type", JStr "string");
                ("enum", str_enum ["load"; "domcontentloaded"; "networkidle"; "commit"]);
                ("description", JStr "When to consider navigation done (default: load)")]);
         ("timeout",
          JObj [("type", JStr "integer");
                ("description", JStr "Navigation timeout in milliseconds (default: 30000)");
                ("minimum", JInt 1000);
                ("maximum", JInt 120000)]);
         ("extractMode",
          JObj [("type", JStr "string");
                ("enum", str_enum ["text"; "markdown"]);
                ("description", JStr "Content extraction mode (default: text)")]);
         ("maxChars",
          JObj [("type", JStr "integer");
                ("description", JStr "Max characters to return (default: config value)");
                ("minimum", JInt 100)]);
         ("filename",
          JObj [("type", JStr "string");
                ("description", JStr "Screenshot filename (default: auto-generated)")]);
         ("script",
          JObj [("type", JStr "string");
                ("description",
                 JStr "JavaScript expression to evaluate (execute_js action)")])]);
     ("required", str_enum ["action"])].

(** ** The tool and its method bodies *)

Section Tool.
Variable U : Upstream.

(** [self]: the configuration given to [__init__] and the session
    state, [_camoufox] (the handle) and [_page]. *)
Record Tool : Type :=
  { workspace : Path U;
    max_chars : Z;
    screenshot_dir : string;
    _camoufox : option (AsyncCamoufox (Browser U));
    _page : option (Page U) }.

(** [__init__] *)
Definition init (workspace : Path U) (max_chars : Z) (screenshot_dir : string) : Tool :=
  {| workspace := workspace; max_chars := max_chars; screenshot_dir := screenshot_dir;
     _camoufox := None; _page := None |}.

(** [__init__] with the defaults of its signature. *)
Definition init_default (workspace : Path U) : Tool := init workspace 50000%Z "screenshots".

Definition set_camoufox (h : option (AsyncCamoufox (Browser U))) (self : Tool) : Tool :=
  {| workspace := workspace self; max_chars := max_chars self;
     screenshot_dir := screenshot_dir self; _camoufox := h; _page := _page self |}.

Definition set_page (p : option (Page U)) (self : Tool) : Tool :=
  {| workspace := workspace self; max_chars := max_chars self;
     screenshot_dir := screenshot_dir self; _camoufox := _camoufox self; _page := p |}.

(** The world outside the tool together with the record of calls. *)
Record Sys : Type := { world : World U; calls : list Call }.

(** A method body: it reads and updates [self], acts on the world, and
    returns or raises.  Updates made before a raise stay. *)
Definition M (A : Type) : Type := Tool -> Sys -> outcome A * Tool * Sys.

Definition ret {A} (a : A) : M A := fun self sys => (Ret a, self, sys).

Definition raise {A} (e : exn) : M A := fun self sys => (Raise e, self, sys).

Definition bind {A B} (m : M A) (f : A -> M B) : M B :=
  fun self sys =>
    match m self sys with
    | (Ret a, self', sys') => f a self' sys'
    | (Raise e, self', sys') => (Raise e, self', sys')
    end.

(** [try: m except Exception as e: h e] *)
Definition try_except {A} (m : M A) (h : exn -> M A) : M A :=
  fun self sys =>
    match m self sys with
    | (Ret a, self', sys') => (Ret a, self', sys')
    | (Raise e, self', sys') => h e self' sys'
    end.

Definition get_self : M Tool := fun self sys => (Ret self, self, sys).

Definition update (f : Tool -> Tool) : M unit := fun self sys => (Ret tt, f self, sys).

(** The record of calls after an upstream call that returned [r]. *)
Definition recorded {A} (cs : list Call) (r : outcome A) : list Call :=
  match r with
  | Ret _ => cs
  | Raise e => cs ++ [Raised e]
  end.

(** An awaited call on the capability: it is recorded, then it runs. *)
Definition await {A} (c : Call) (f : World U -> outcome A * World U) : M A :=
  fun self sys =>
    let (r, w) := f (world sys) in
    (r, self, {| world := w; calls := recorded (calls sys ++ [c]) r |}).

(** A read of the world that cannot raise (a property, the clock). *)
Definition peek {A} (f : World U -> A) : M A :=
  fun self sys => (Ret (f (world sys)), self, sys).

(** A call that acts on the world outside the browser. *)
Definition perform {A} (f : World U -> outcome A * World U) : M A :=
  fun self sys =>
    let (r, w) := f (world sys) in
    (r, self, {| world := w; calls := recorded (calls sys) r |}).

(** A call that has no effect besides its outcome. *)
Definition lift {A} (r : outcome A) : M A :=
  fun self sys => (r, self, {| world := world sys; calls := recorded (calls sys) r |}).

End Tool.

Arguments workspace {U} _.
Arguments max_chars {U} _.
Arguments screenshot_dir {U} _.
Arguments _camoufox {U} _.
Arguments _page {U} _.
Arguments world {U} _.
Arguments calls {U} _.
Arguments ret {U A} a.
Arguments raise {U A} e.
Arguments bind {U A B} m f.
Arguments try_except {U A} m h.
Arguments get_self {U}.
Arguments update {U} f.
Arguments await {U A} c f.
Arguments peek {U A} f.
Arguments perform {U A} f.
Arguments lift {U A} r.
Arguments recorded {A} cs r.
Arguments set_camoufox {U} h self.
Arguments set_page {U} p self.

Declare Scope tool_scope.
Delimit Scope tool_scope with tool.
Notation "x <- m ;; k" := (bind m (fun x => k))
  (at level 61, m at next level, right associativity) : tool_scope.
Notation "m ;; k" := (bind m (fun _ => k))
  (at level 61, right associativity) : tool_scope.
Open Scope tool_scope.

(** ** The methods of [WebBrowseTool]

    A method that has tested [self._page] against [None] uses the page
    it found; [_navigate] reads [self._page] after [_ensure_browser]
    has run. *)

Section Methods.
Variable U : Upstream.

Definition error_result (msg : string) : json := JObj [("error", JStr msg)].

Definition no_page_error : json := error_result "No page loaded. Use navigate first.".

(** [self._camoufox.__aenter__()]: on success the handle holds the
    browser it launched. *)
Definition aenter (h : AsyncCamoufox (Browser U)) : M U (Browser U) :=
  b <- await (CallLaunch (headless h)) (camoufox_aenter U h) ;;
  update (set_camoufox (Some {| headless := headless h; browser := Some b |})) ;;
  ret b.

(** [self._camoufox.__aexit__(None, None, None)] *)
Definition aexit (h : AsyncCamoufox (Browser U)) : M U unit :=
  await CallShutdown (camoufox_aexit U h).

(** The attribute error of a method call on [None]. *)
Definition none_has_no (attr : string) : exn :=
  Exception ("'NoneType' object has no attribute '" ++ attr ++ "'").

(** [self._page], for a use that calls a method or reads a property
    on it. *)
Definition the_page (attr : string) : M U (Page U) :=
  self <- get_self ;;
  match _page self with
  | Some p => ret p
  | None => raise (none_has_no attr)
  end.

Definition _ensure_browser : M U unit :=
  self <- get_self ;;
  match _page self with
  | Some _ => ret tt
  | None =>
      let h := {| headless := true; browser := None |} in
      update (set_camoufox (Some h)) ;;
      browser <- aenter h ;;
      page <- await CallNewPage (browser_new_page U browser) ;;
      update (set_page (Some page))
  end.

Definition close : M U unit :=
  self <- get_self ;;
  match _camoufox self with
  | Some h =>
      try_except (aexit h) (fun _ => ret tt) ;;
      update (set_camoufox None)
  | None => ret tt
  end ;;
  update (set_page None).

Definition _navigate (kw : kwargs) : M U json :=
  let waitUntil := match waitUntil kw with Some w => w | None => "load" end in
  let timeout := match timeout kw with Some t => t | None => 30000%Z end in
  match url kw with
  | None | Some EmptyString =>
      ret (error_result "url is required for navigate action")
  | Some url =>
      let (is_valid, error_msg) := _validate_url U url in
      if negb is_valid
      then ret (JObj [("error", JStr ("URL validation failed: " ++ error_msg));
                      ("url", JStr url)])
      else
        _ensure_browser ;;
        page <- the_page "goto" ;;
        response <- await (CallGoto url waitUntil timeout)
                          (page_goto U page url waitUntil timeout) ;;
        let status := match response with
                      | Some r => JInt (status r)
                      | None => JNull
                      end in
        page <- the_page "url" ;;
        finalUrl <- peek (page_url U page) ;;
        page <- the_page "title" ;;
        title <- await CallTitle (page_title U page) ;;
        ret (JObj [("ok", JBool true);
                   ("url", JStr url);
                   ("finalUrl", JStr finalUrl);
                   ("status", status);
                   ("title", JStr title)])
  end.

(** [maxChars or self.max_chars] *)
Definition effective_max_chars (kw : kwargs) (self : Tool U) : Z :=
  match maxChars kw with
  | None => max_chars self
  | Some n => if (n =? 0)%Z then max_chars self else n
  end.

(** The text of the page before the cap applies: the chosen rendering
    of the summary under the extractor's title, when it found one. *)
Definition render (extractMode : string) (summary : string) : string :=
  if String.eqb extractMode "markdown"
  then _to_markdown summary
  else _normalize (_strip_tags summary).

Definition with_title (doc_title : string) (text : string) : string :=
  if PyStr.truthy doc_title
  then "# " ++ doc_title ++ PyStr.nl ++ PyStr.nl ++ text
  else text.

(** [truncated = len(text) > max_chars], and the cut [text[:max_chars]]. *)
Definition truncate (max_chars : Z) (text : string) : bool * string :=
  let truncated := (max_chars <? Z.of_nat (length text))%Z in
  (truncated, if truncated then PyStr.slice_to max_chars text else text).

Definition _get_content (kw : kwargs) : M U json :=
  let extractMode := match extractMode kw with Some m => m | None => "text" end in
  self <- get_self ;;
  match _page self with
  | None => ret no_page_error
  | Some page =>
      let max_chars := effective_max_chars kw self in
      title <- await CallTitle (page_title U page) ;;
      page_url <- peek (page_url U page) ;;
      html_content <- await CallContent (page_content U page) ;;
      summary <- lift (doc_summary U html_content) ;;
      let text := render extractMode summary in
      doc_title <- lift (doc_title U html_content) ;;
      let text := with_title doc_title text in
      let (truncated, text) := truncate max_chars text in
      ret (JObj [("url", JStr page_url);
                 ("title", JStr title);
                 ("extractor", JStr "readability");
                 ("truncated", JBool truncated);
                 ("length", JInt (Z.of_nat (length text)));
                 ("text", JStr text)])
  end.

Definition _screenshot (kw : kwargs) : M U json :=
  self <- get_self ;;
  match _page self with
  | None => ret no_page_error
  | Some page =>
      let screenshot_dir := path_div U (workspace self) (screenshot_dir self) in
      perform (path_mkdir U screenshot_dir) ;;
      filename <- match filename kw with
                  | None | Some EmptyString =>
                      now <- peek (time_time U) ;;
                      ret ("screenshot_" ++ PyStr.of_Z now ++ ".png")
                  | Some f => ret f
                  end ;;
      let filename :=
        if negb (PyStr.endswith ".png" filename) then filename ++ ".png" else filename in
      let path := path_div U screenshot_dir filename in
      await (CallScreenshot (path_str U path) true)
            (page_screenshot U page (path_str U path) true) ;;
      url <- peek (page_url U page) ;;
      ret (JObj [("ok", JBool true);
                 ("path", JStr (path_str U path));
                 ("url", JStr url)])
  end.

Definition _execute_js (kw : kwargs) : M U json :=
  match script kw with
  | None | Some EmptyString =>
      ret (error_result "script is required for execute_js action")
  | Some script =>
      self <- get_self ;;
      match _page self with
      | None => ret no_page_error
      | Some page =>
          result <- await (CallEvaluate script) (page_evaluate U page script) ;;
          ret (JObj [("ok", JBool true); ("result", result)])
      end
  end.

(** The body of the [try] in [execute]. *)
Definition dispatch (action : string) (kw : kwargs) : M U json :=
  if String.eqb action "navigate" then _navigate kw
  else if String.eqb action "get_content" then _get_content kw
  else if String.eqb action "screenshot" then _screenshot kw
  else if String.eqb action "execute_js" then _execute_js kw
  else if String.eqb action "close" then
    close ;;
    ret (JObj [("ok", JBool true); ("message", JStr "Browser closed")])
  else ret (error_result ("Unknown action: " ++ action)).

(** [execute]: whatever the body raises becomes an error payload. *)
Definition execute (action : string) (kw : kwargs)
           (self : Tool U) (sys : Sys U) : json * Tool U * Sys U :=
  match dispatch action kw self sys with
  | (Ret payload, self', sys') => (payload, self', sys')
  | (Raise e, self', sys') => (error_result (str e), self', sys')
  end.

(** A sequence of [execute] calls on one tool instance. *)
Fixpoint execute_all (reqs : list (string * kwargs)) (self : Tool U) (sys : Sys U)
  : list json * Tool U * Sys U :=
  match reqs with
  | [] => ([], self, sys)
  | (action, kw) :: reqs' =>
      let '(r, self', sys') := execute action kw self sys in
      let '(rs, self'', sys'') := execute_all reqs' self' sys' in
      (r :: rs, self'', sys'')
  end.

End Methods.

(** ** A scripted upstream

    A small stand-in for the browser engine, in the manner of a test
    double: the page shows the last URL it was sent to, the extractor
    hands the HTML back unchanged and finds no title, and the validator
    accepts http and https URLs.  The switches make a call raise. *)

Record Script : Type :=
  { launch_raises : bool;
    new_page_raises : bool;
    goto_raises : bool;
    shutdown_raises : bool;
    html : string }.

Definition all_well (html : string) : Script :=
  {| launch_raises := false; new_page_raises := false; goto_raises := false;
     shutdown_raises := false; html := html |}.

Definition scripted (sc : Script) : Upstream :=
  {| World := string;
     Browser := unit;
     Page := unit;
     Path := string;
     camoufox_aenter := fun _ w =>
       if launch_raises sc then (Raise (Exception "browser executable not found"), w)
       else (Ret tt, w);
     camoufox_aexit := fun _ w =>
       if shutdown_raises sc then (Raise (Exception "browser has been closed"), w)
       else (Ret tt, w);
     browser_new_page := fun _ w =>
       if new_page_raises sc then (Raise (Exception "Target closed"), w)
       else (Ret tt, w);
     page_goto := fun _ url _ _ w =>
       if goto_raises sc then (Raise (Exception "Timeout 30000ms exceeded."), w)
       else (Ret (Some {| status := 200%Z |}), url);
     page_url := fun _ w => w;
     page_title := fun _ w => (Ret "Example Domain", w);
     page_content := fun _ w => (Ret (html sc), w);
     page_screenshot := fun _ _ _ w => (Ret tt, w);
     page_evaluate := fun _ script w => (Ret (JStr script), w);
     doc_summary := fun h => Ret h;
     doc_title := fun _ => Ret EmptyString;
     _validate_url := fun u =>
       if PyStr.startswith "http://" u || PyStr.startswith "https://" u
       then (true, EmptyString)
       else (false, "Only http/https allowed");
     time_time := fun _ => 1700000000%Z;
     path_div := fun a b => a ++ "/" ++ b;
     path_str := fun a => a;
     path_mkdir := fun _ w => (Ret tt, w) |}.

(** A fresh tool on the scripted upstream and the world it starts in. *)
Definition fresh (sc : Script) : Tool (scripted sc) :=
  init_default (scripted sc) "/ws".

Definition blank (sc : Script) : Sys (scripted sc) :=
  {| world := "about:blank" : World (scripted sc); calls := [] |}.

Definition with_url (u : string) : kwargs :=
  {| url := Some u; waitUntil := None; timeout := None; extractMode := None;
     maxChars := None; filename := None; script := None |}.

Definition with_max_chars (n : Z) : kwargs :=
  {| url := None; waitUntil := None; timeout := None; extractMode := None;
     maxChars := Some n; filename := None; script := None |}.

Definition with_script (s : string) : kwargs :=
  {| url := None; waitUntil := None; timeout := None; extractMode := None;
     maxChars := None; filename := None; script := Some s |}.

(** ** Vocabulary of the statements *)

Definition closed_result : json :=
  JObj [("ok", JBool true); ("message", JStr "Browser closed")].

(** The session state with both the handle and the page cleared. *)
Definition cleared {U : Upstream} (self : Tool U) : Tool U :=
  set_page None (set_camoufox None self).

(** The handle as [_ensure_browser] leaves it after a launch that
    returned the browser [b]. *)
Definition launched {U : Upstream} (b : Browser U) : AsyncCamoufox (Browser U) :=
  {| headless := true; browser := Some b |}.

Fixpoint field (k : string) (fs : list (string * json)) : option json :=
  match fs with
  | [] => None
  | (k', v) :: fs' => if String.eqb k k' then Some v else field k fs'
  end.

Definition get (k : string) (payload : json) : option json :=
  match payload with
  | JObj fs => field k fs
  | _ => None
  end.

(** The payload carries an [error] field that is a string. *)
Definition has_error (payload : json) : bool :=
  match get "error" payload with
  | Some (JStr _) => true
  | _ => false
  end.

(** The fields of each action's success payload. *)
Definition success_fields (action : string) : list string :=
  if String.eqb action "navigate" then ["ok"; "url"; "finalUrl"; "status"; "title"]
  else if String.eqb action "get_content"
       then ["url"; "title"; "extractor"; "truncated"; "length"; "text"]
  else if String.eqb action "screenshot" then ["ok"; "path"; "url"]
  else if String.eqb action "execute_js" then ["ok"; "result"]
  else if String.eqb action "close" then ["ok"; "message"]
  else [].

(** The payload carries every success field of the action; an unknown
    action has no success payload. *)
Definition has_success_fields (action : string) (payload : json) : bool :=
  match success_fields action with
  | [] => false
  | ks => forallb (fun k => match get k payload with Some _ => true | None => false end) ks
  end.

Definition page_present {U : Upstream} (self : Tool U) : bool :=
  match _page self with Some _ => true | None => false end.

Definition handle_present {U : Upstream} (self : Tool U) : bool :=
  match _camoufox self with Some _ => true | None => false end.

(** The handle is there and its [__aenter__] has returned a browser. *)
Definition handle_initialized {U : Upstream} (self : Tool U) : bool :=
  match _camoufox self with
  | Some h => match browser h with Some _ => true | None => false end
  | None => false
  end.

(** The invariant as the spec words it: the page is present iff the
    handle is present and initialized. *)
Definition session_invariant {U : Upstream} (self : Tool U) : Prop :=
  page_present self = handle_initialized self.

(** The action gets as far as [_ensure_browser]: it is a [navigate]
    with a URL that is given and that the validator accepts. *)
Definition reaches_ensure (U : Upstream) (req : string * kwargs) : bool :=
  String.eqb (fst req) "navigate" &&
  match url (snd req) with
  | Some (String _ _ as u) => fst (_validate_url U u)
  | _ => false
  end.

(** Opening a page on a launched browser never raises on this upstream. *)
Definition new_page_never_raises (U : Upstream) : Prop :=
  forall (b : Browser U) (w : World U),
  exists (p : Page U) (w' : World U), browser_new_page U b w = (Ret p, w').

Definition tool_after {U : Upstream} (r : json * Tool U * Sys U) : Tool U := snd (fst r).

(** The tool after a sequence of actions. *)
Definition tool_after_all {U : Upstream} (r : list json * Tool U * Sys U) : Tool U :=
  snd (fst r).

Definition extract_mode (kw : kwargs) : string :=
  match extractMode kw with Some m => m | None => "text" end.

(** A tool on the scripted upstream whose session is open. *)
Definition loaded (sc : Script) : Tool (scripted sc) :=
  @set_page (scripted sc) (Some tt)
            (@set_camoufox (scripted sc) (Some (@launched (scripted sc) tt)) (fresh sc)).

Definition five_hundred : string := PyStr.repeat_char "a" 500.

Definition heading_with_link : string := "<h2><a href='u'>t</a></h2>".

(** The schema of one declared parameter. *)
Definition property (name : string) : option json :=
  match get "properties" parameters with
  | Some props => get name props
  | None => None
  end.

(** An integer is within the [minimum] and [maximum] that the schema of
    the parameter declares; a bound that is not declared does not bind. *)
Definition within_declared_range (name : string) (n : Z) : bool :=
  match property name with
  | Some schema =>
      match get "minimum" schema with
      | Some (JInt lo) => (lo <=? n)%Z
      | _ => true
      end
      && match get "maximum" schema with
         | Some (JInt hi) => (n <=? hi)%Z
         | _ => true
         end
  | None => true
  end.

(** The values that the schema of the parameter enumerates. *)
Definition declared_enum (name : string) : option json :=
  match property name with
  | Some schema => get "enum" schema
  | None => None
  end.

Definition wait_until (kw : kwargs) : string :=
  match waitUntil kw with Some w => w | None => "load" end.

Definition timeout_ms (kw : kwargs) : Z :=
  match timeout kw with Some t => t | None => 30000%Z end.

Definition status_of (response : option Response) : json :=
  match response with Some r => JInt (status r) | None => JNull end.

Definition patient_request : kwargs :=
  {| url := Some "http://example.com"; waitUntil := Some "networkidle";
     timeout := Some 5000%Z; extractMode := None; maxChars := None;
     filename := None; script := None |}.

(** A call that creates the session or sends its page somewhere. *)
Definition opens_or_moves (c : Call) : bool :=
  match c with
  | CallLaunch _ | CallNewPage | CallGoto _ _ _ => true
  | _ => false
  end.

Definition is_shutdown (c : Call) : bool :=
  match c with CallShutdown => true | _ => false end.

Definition is_screenshot (c : Call) : bool :=
  match c with CallScreenshot _ _ => true | _ => false end.

(** The action names that the schema enumerates. *)
Definition declared_actions : list string :=
  match declared_enum "action" with
  | Some (JArr items) =>
      flat_map (fun j => match j with JStr s => [s] | _ => [] end) items
  | _ => []
  end.

Definition with_filename (f : string) : kwargs :=
  {| url := None; waitUntil := None; timeout := None; extractMode := None;
     maxChars := None; filename := Some f; script := None |}.

Definition with_mode (m : string) : kwargs :=
  {| url := None; waitUntil := None; timeout := None; extractMode := Some m;
     maxChars := None; filename := None; script := None |}.

(** The scripted upstream on a file system that refuses to make
    directories. *)
Definition read_only_disk (sc : Script) : Upstream :=
  {| World := World (scripted sc);
     Browser := Browser (scripted sc);
     Page := Page (scripted sc);
     Path := Path (scripted sc);
     camoufox_aenter := camoufox_aenter (scripted sc);
     camoufox_aexit := camoufox_aexit (scripted sc);
     browser_new_page := browser_new_page (scripted sc);
     page_goto := page_goto (scripted sc);
     page_url := page_url (scripted sc);
     page_title := page_title (scripted sc);
     page_content := page_content (scripted sc);
     page_screenshot := page_screenshot (scripted sc);
     page_evaluate := page_evaluate (scripted sc);
     doc_summary := doc_summary (scripted sc);
     doc_title := doc_title (scripted sc);
     _validate_url := _validate_url (scripted sc);
     time_time := time_time (scripted sc);
     path_div := path_div (scripted sc);
     path_str := path_str (scripted sc);
     path_mkdir := fun _ w => (Raise (Exception "Read-only file system"), w) |}.

(** The scripted upstream with an extractor that finds the title
    "News". *)
Definition titled (sc : Script) : Upstream :=
  {| World := World (scripted sc);
     Browser := Browser (scripted sc);
     Page := Page (scripted sc);
     Path := Path (scripted sc);
     camoufox_aenter := camoufox_aenter (scripted sc);
     camoufox_aexit := camoufox_aexit (scripted sc);
     browser_new_page := browser_new_page (scripted sc);
     page_goto := page_goto (scripted sc);
     page_url := page_url (scripted sc);
     page_title := page_title (scripted sc);
     page_content := page_content (scripted sc);
     page_screenshot := page_screenshot (scripted sc);
     page_evaluate := page_evaluate (scripted sc);
     doc_summary := doc_summary (scripted sc);
     doc_title := fun _ => Ret "News";
     _validate_url := _validate_url (scripted sc);
     time_time := time_time (scripted sc);
     path_div := path_div (scripted sc);
     path_str := path_str (scripted sc);
     path_mkdir := path_mkdir (scripted sc) |}.

(** A tool with an open session on a given upstream whose browser and
    page are the unit value. *)
Definition open_on (U : Upstream) (b : Browser U) (p : Page U) (ws : Path U) : Tool U :=
  set_page (Some p) (set_camoufox (Some (launched b)) (init_default U ws)).

(** The character does not occur in the string. *)
Fixpoint free_of (a : ascii) (s : string) : bool :=
  match s with
  | EmptyString => true
  | String c s' => negb (Ascii.eqb c a) && free_of a s'
  end.

(** The pattern can only match at a given first character. *)
Fixpoint first_is (a : ascii) (r : Re.regex) : bool :=
  match r with
  | Re.Chr c => Ascii.eqb c a
  | Re.Cat r1 _ => first_is a r1
  | Re.Grp _ r1 => first_is a r1
  | _ => false
  end.

(** Every character of the string is in the class. *)
Fixpoint every (p : ascii -> bool) (s : string) : bool :=
  match s with
  | EmptyString => true
  | String c s' => p c && every p s'
  end.

(** The digit of a heading level. *)
Definition level_digit (n : nat) : ascii := ascii_of_nat (48 + n).

(** The anchor pattern from [href=] on. *)
Definition href_re : Re.regex :=
  Re.seq [Re.lit "href=";
          Re.Cls (Re.one_of [dquote; squote]);
          Re.Grp 1 (Re.Rep 1 true (Re.none_of [dquote; squote]));
          Re.Cls (Re.one_of [dquote; squote]);
          Re.Rep 0 true (Re.none_of [gt]); Re.Chr gt;
          Re.Grp 2 (Re.Rep 0 false Re.any); Re.lit "</a>"].

(** The continuation fails after each character that a greedy run over
    [a] can give back. *)
Fixpoint fails_on_tails {R : Type} (k : string -> option R) (a s : string) : Prop :=
  match a with
  | EmptyString => True
  | String _ a' => k (a' ++ s) = None /\ fails_on_tails k a' s
  end.

(** The scripted upstream with an extractor that cannot parse the
    document. *)
Definition unparseable (sc : Script) : Upstream :=
  {| World := World (scripted sc);
     Browser := Browser (scripted sc);
     Page := Page (scripted sc);
     Path := Path (scripted sc);
     camoufox_aenter := camoufox_aenter (scripted sc);
     camoufox_aexit := camoufox_aexit (scripted sc);
     browser_new_page := browser_new_page (scripted sc);
     page_goto := page_goto (scripted sc);
     page_url := page_url (scripted sc);
     page_title := page_title (scripted sc);
     page_content := page_content (scripted sc);
     page_screenshot := page_screenshot (scripted sc);
     page_evaluate := page_evaluate (scripted sc);
     doc_summary := fun _ => Raise (Exception "Document is empty");
     doc_title := doc_title (scripted sc);
     _validate_url := _validate_url (scripted sc);
     time_time := time_time (scripted sc);
     path_div := path_div (scripted sc);
     path_str := path_str (scripted sc);
     path_mkdir := path_mkdir (scripted sc) |}.

(** ** Proof steps shared by the theorems *)

Ltac unfold_methods :=
  unfold execute, dispatch, _navigate, _get_content, _screenshot, _execute_js,
    close, _ensure_browser, aenter, aexit, the_page, no_page_error,
    bind, ret, raise, try_except, get_self, update, await, peek, perform, lift in *.

(** Split on the outcome of the next call on the upstream, the next
    keyword argument or the next test that the goal is stuck on. *)
Ltac split_call c :=
  let w := fresh "w" in
  let E := fresh "E" in
  destruct c as [[?|?] w] eqn:E.

Ltac split_step :=
  match goal with
  | |- context [camoufox_aenter ?U ?h ?w] => split_call (camoufox_aenter U h w)
  | |- context [camoufox_aexit ?U ?h ?w] => split_call (camoufox_aexit U h w)
  | |- context [browser_new_page ?U ?b ?w] => split_call (browser_new_page U b w)
  | |- context [page_goto ?U ?p ?u ?c ?t ?w] => split_call (page_goto U p u c t w)
  | |- context [page_title ?U ?p ?w] => split_call (page_title U p w)
  | |- context [page_content ?U ?p ?w] => split_call (page_content U p w)
  | |- context [page_screenshot ?U ?p ?f ?b ?w] => split_call (page_screenshot U p f b w)
  | |- context [page_evaluate ?U ?p ?s ?w] => split_call (page_evaluate U p s w)
  | |- context [path_mkdir ?U ?p ?w] => split_call (path_mkdir U p w)
  | |- context [doc_summary ?U ?h] => destruct (doc_summary U h) eqn:?
  | |- context [doc_title ?U ?h] => destruct (doc_title U h) eqn:?
  | |- context [_validate_url ?U ?u] => destruct (_validate_url U u) as [[|] ?] eqn:?
  | |- context [match ?x with Some _ => _ | None => _ end] => is_var x; destruct x
  | |- context [match ?x with EmptyString => _ | String _ _ => _ end] =>
      is_var x; destruct x
  | |- context [if ?b then _ else _] => destruct b eqn:?
  end; cbn.

(** Split on which of the five actions, if any, the name is. *)
Ltac by_action action :=
  destruct (String.eqb action "navigate") eqn:?;
  [| destruct (String.eqb action "get_content") eqn:?;
     [| destruct (String.eqb action "screenshot") eqn:?;
        [| destruct (String.eqb action "execute_js") eqn:?;
           [| destruct (String.eqb action "close") eqn:? ]]]].

(** ** Preconditions of the actions *)

(** C8: a [get_content] or [screenshot] call made while no page exists
    returns exactly the error payload "No page loaded. Use navigate
    first." and leaves the tool and the world as they were. *)
Theorem no_page_no_content_no_screenshot :
  forall (U : Upstream) (action : string) (kw : kwargs) (self : Tool U) (sys : Sys U),
    _page self = None ->
    action = "get_content" \/ action = "screenshot" ->
    execute U action kw self sys
    = (JObj [("error", JStr "No page loaded. Use navigate first.")], self, sys).
Proof.
  intros U action kw self sys Hpage [-> | ->]; unfold_methods; cbn;
    rewrite Hpage; reflexivity.
Qed.

Lemma no_page_no_content_no_screenshot_witness :
  execute (scripted (all_well "")) "get_content" no_kwargs
          (fresh (all_well "")) (blank (all_well ""))
  = (JObj [("error", JStr "No page loaded. Use navigate first.")],
     fresh (all_well ""), blank (all_well "")).
Proof.
  apply (no_page_no_content_no_screenshot (scripted (all_well "")) "get_content");
    [reflexivity | left; reflexivity].
Defined.

(** C10: an [execute_js] call whose script is absent or empty returns
    the error "script is required for execute_js action" whether or not
    a page is loaded, because the script is tested before the page;
    nothing else changes. *)
Theorem execute_js_script_checked_first :
  forall (U : Upstream) (kw : kwargs) (self : Tool U) (sys : Sys U),
    script kw = None \/ script kw = Some EmptyString ->
    execute U "execute_js" kw self sys
    = (JObj [("error", JStr "script is required for execute_js action")], self, sys).
Proof.
  intros U kw self sys [H | H]; unfold_methods; cbn; rewrite H; reflexivity.
Qed.

Lemma execute_js_script_checked_first_witness :
  execute (scripted (all_well "")) "execute_js" (with_script "")
          (fresh (all_well "")) (blank (all_well ""))
  = (JObj [("error", JStr "script is required for execute_js action")],
     fresh (all_well ""), blank (all_well "")).
Proof.
  apply (execute_js_script_checked_first (scripted (all_well "")) (with_script ""));
    right; reflexivity.
Defined.

(** ** Closing the session *)

Lemma close_returns :
  forall (U : Upstream) (self : Tool U) (sys : Sys U),
    exists sys', close U self sys = (Ret tt, cleared self, sys').
Proof.
  intros U [ws mc dir h p] sys. unfold_methods; cbn.
  destruct h as [h|]; [|eexists; reflexivity].
  destruct (camoufox_aexit U h (world sys)) as [[[]|e] w']; eexists; reflexivity.
Qed.

Lemma close_cleared_is_silent :
  forall (U : Upstream) (self : Tool U) (sys : Sys U),
    close U (cleared self) sys = (Ret tt, cleared self, sys).
Proof. intros U [ws mc dir h p] sys. reflexivity. Qed.

Lemma dispatch_close :
  forall (U : Upstream) (kw : kwargs),
    dispatch U "close" kw = (close U ;; ret closed_result).
Proof. reflexivity. Qed.

Lemma execute_close :
  forall (U : Upstream) (kw : kwargs) (self : Tool U) (sys : Sys U),
    exists sys', execute U "close" kw self sys = (closed_result, cleared self, sys').
Proof.
  intros U kw self sys. destruct (close_returns U self sys) as [sys' H].
  exists sys'. unfold execute. rewrite dispatch_close. unfold bind.
  rewrite H. reflexivity.
Qed.

(** C5: [close] never raises, whatever the shutdown of the browser
    does, and leaves both the handle and the page absent; the close
    action answers [{ok: true, message: Browser closed}], and a
    second close right after it answers the same and changes nothing. *)
Theorem close_total_and_idempotent :
  forall (U : Upstream) (kw1 kw2 : kwargs) (self : Tool U) (sys : Sys U),
    (exists self1 sys1,
        close U self sys = (Ret tt, self1, sys1)
        /\ _camoufox self1 = None /\ _page self1 = None)
    /\ (exists self1 sys1,
           execute U "close" kw1 self sys = (closed_result, self1, sys1)
           /\ _camoufox self1 = None /\ _page self1 = None
           /\ execute U "close" kw2 self1 sys1 = (closed_result, self1, sys1)
           /\ fst (fst (execute_all U [("close", kw1); ("close", kw2)] self sys))
              = [JObj [("ok", JBool true); ("message", JStr "Browser closed")];
                 JObj [("ok", JBool true); ("message", JStr "Browser closed")]]).
Proof.
  intros U kw1 kw2 self sys. split.
  - destruct (close_returns U self sys) as [sys1 H].
    exists (cleared self), sys1. repeat split; assumption.
  - destruct (execute_close U kw1 self sys) as [sys1 H1].
    assert (H2 : execute U "close" kw2 (cleared self) sys1
                 = (closed_result, cleared self, sys1)).
    { unfold execute. rewrite dispatch_close. unfold bind.
      rewrite close_cleared_is_silent. reflexivity. }
    exists (cleared self), sys1. repeat split; try assumption.
    cbn [execute_all]. rewrite H1, H2. reflexivity.
Qed.

(** A shutdown that raises is swallowed: on the scripted upstream whose
    [__aexit__] raises, closing a launched session still answers ok and
    clears the session. *)
Example close_swallows_shutdown_error :
  let sc := {| launch_raises := false; new_page_raises := false; goto_raises := false;
               shutdown_raises := true; html := "" |} in
  let '(rs, self, sys) :=
    execute_all (scripted sc)
                [("navigate", with_url "http://example.com"); ("close", no_kwargs)]
                (fresh sc) (blank sc) in
  nth 1 rs JNull = closed_result
  /\ _camoufox self = None /\ _page self = None
  /\ calls sys = [CallLaunch true; CallNewPage;
                  CallGoto "http://example.com" "load" 30000%Z; CallTitle;
                  CallShutdown; Raised (Exception "browser has been closed")].
Proof. cbv. repeat split. Qed.

(** ** Navigation: validation comes first *)

(** C4: a [navigate] call that passes a URL which the validator rejects
    returns the error payload carrying the validator's message, word
    for word, after the fixed prefix, together with [url] equal to the
    input; no call reaches the browser and the session state is what
    it was. *)
Theorem navigate_rejected_url :
  forall (U : Upstream) (kw : kwargs) (self : Tool U) (sys : Sys U)
         (u error_msg : string),
    url kw = Some u ->
    u <> EmptyString ->
    _validate_url U u = (false, error_msg) ->
    execute U "navigate" kw self sys
    = (JObj [("error", JStr ("URL validation failed: " ++ error_msg)); ("url", JStr u)],
       self, sys).
Proof.
  intros U kw self sys u msg Hu Hne Hval.
  unfold_methods; cbn. rewrite Hu.
  destruct u as [|c u']; [congruence|].
  rewrite Hval. reflexivity.
Qed.

Lemma navigate_rejected_url_witness :
  execute (scripted (all_well "")) "navigate" (with_url "not a url")
          (fresh (all_well "")) (blank (all_well ""))
  = (JObj [("error", JStr "URL validation failed: Only http/https allowed");
           ("url", JStr "not a url")],
     fresh (all_well ""), blank (all_well "")).
Proof.
  apply (navigate_rejected_url (scripted (all_well "")) (with_url "not a url")
                               (fresh (all_well "")) (blank (all_well ""))
                               "not a url" "Only http/https allowed");
    [reflexivity | discriminate | reflexivity].
Defined.

(** A call without a URL, or with the empty one, is turned away before
    the validator is asked. *)
Lemma navigate_without_url :
  forall (U : Upstream) (kw : kwargs) (self : Tool U) (sys : Sys U),
    url kw = None \/ url kw = Some EmptyString ->
    execute U "navigate" kw self sys
    = (JObj [("error", JStr "url is required for navigate action")], self, sys).
Proof.
  intros U kw self sys [H | H]; unfold_methods; cbn; rewrite H; reflexivity.
Qed.

(** ** Acquiring the session *)

Lemma launches_snoc :
  forall (cs : list Call) (c : Call),
    launches (cs ++ [c]) = launches cs + (if is_launch c then 1 else 0).
Proof.
  intros cs c. unfold launches. rewrite filter_app, length_app. cbn.
  destruct (is_launch c); reflexivity.
Qed.

Lemma ensure_with_page :
  forall (U : Upstream) (self : Tool U) (sys : Sys U) (p : Page U),
    _page self = Some p ->
    _ensure_browser U self sys = (Ret tt, self, sys).
Proof.
  intros U self sys p Hp. unfold _ensure_browser, bind, get_self.
  rewrite Hp. reflexivity.
Qed.

Lemma ensure_without_page :
  forall (U : Upstream) (self : Tool U) (sys : Sys U)
         (b : Browser U) (p : Page U) (w1 w2 : World U),
    _page self = None ->
    camoufox_aenter U {| headless := true; browser := None |} (world sys) = (Ret b, w1) ->
    browser_new_page U b w1 = (Ret p, w2) ->
    _ensure_browser U self sys
    = (Ret tt,
       set_page (Some p) (set_camoufox (Some (launched b)) self),
       {| world := w2; calls := calls sys ++ [CallLaunch true; CallNewPage] |}).
Proof.
  intros U [ws mc dir h pg] sys b p w1 w2 Hp Hl Hn. cbn in Hp. subst pg.
  unfold_methods; cbn. rewrite Hl. cbn. rewrite Hn. cbn.
  rewrite <- app_assoc. reflexivity.
Qed.

Lemma ensure_launches_once :
  forall (U : Upstream) (self : Tool U) (sys : Sys U),
    _page self = None ->
    launches (calls (snd (_ensure_browser U self sys))) = launches (calls sys) + 1.
Proof.
  intros U [ws mc dir h pg] sys Hp. cbn in Hp. subst pg.
  unfold_methods; cbn.
  repeat split_step; repeat rewrite launches_snoc; cbn; lia.
Qed.

(** A [navigate] on a tool that has a page keeps that page and launches
    nothing, whatever else happens during the call. *)
Lemma navigate_with_page :
  forall (U : Upstream) (kw : kwargs) (self : Tool U) (sys : Sys U) (p : Page U),
    _page self = Some p ->
    let '(_, self', sys') := execute U "navigate" kw self sys in
    self' = self /\ launches (calls sys') = launches (calls sys).
Proof.
  intros U [u wu t em mx fn sc] [ws mc dir h pg] sys p Hp. cbn in Hp. subst pg.
  unfold_methods; cbn.
  repeat split_step; repeat rewrite launches_snoc; cbn; split;
    solve [reflexivity | lia].
Qed.

(** The first [navigate] of a session, with a URL that is given and
    accepted, on an upstream whose launch and page opening succeed:
    the page is cached and the browser was launched once, whether or
    not the load itself then raises. *)
Lemma navigate_first :
  forall (U : Upstream) (kw : kwargs) (self : Tool U) (sys : Sys U)
         (u : string) (b : Browser U) (p : Page U) (w1 w2 : World U),
    _page self = None ->
    url kw = Some u -> u <> EmptyString -> fst (_validate_url U u) = true ->
    camoufox_aenter U {| headless := true; browser := None |} (world sys) = (Ret b, w1) ->
    browser_new_page U b w1 = (Ret p, w2) ->
    let '(_, self', sys') := execute U "navigate" kw self sys in
    self' = set_page (Some p) (set_camoufox (Some (launched b)) self)
    /\ launches (calls sys') = launches (calls sys) + 1.
Proof.
  intros U [ku wu t em mx fn sc] [ws mc dir h pg] sys u b p w1 w2 Hp Hu Hne Hv Hl Hn.
  cbn in Hp, Hu. subst pg ku.
  destruct u as [|c u']; [congruence|].
  unfold_methods; cbn.
  destruct (_validate_url U (String c u')) as [[|] msg]; [|discriminate].
  cbn. rewrite Hl. cbn. rewrite Hn. cbn.
  repeat split_step; repeat rewrite launches_snoc; cbn; split;
    solve [reflexivity | lia].
Qed.

(** C6: [_ensure_browser] does nothing when a page exists (same tool,
    same world, no call made); when none exists and the launch and the
    page opening succeed, it launches one headless browser, opens one
    page and caches both, so that running it again does nothing; and
    two [navigate] calls in a row on a tool that had no page launch the
    browser exactly once. *)
Theorem ensure_once_then_reuse :
  forall (U : Upstream) (self : Tool U) (sys : Sys U),
    (forall p : Page U,
        _page self = Some p ->
        _ensure_browser U self sys = (Ret tt, self, sys))
    /\ (forall (b : Browser U) (p : Page U) (w1 w2 : World U),
           _page self = None ->
           camoufox_aenter U {| headless := true; browser := None |} (world sys)
           = (Ret b, w1) ->
           browser_new_page U b w1 = (Ret p, w2) ->
           exists self' sys',
             _ensure_browser U self sys = (Ret tt, self', sys')
             /\ _camoufox self' = Some {| headless := true; browser := Some b |}
             /\ _page self' = Some p
             /\ calls sys' = (calls sys ++ [CallLaunch true; CallNewPage])%list
             /\ launches (calls sys') = launches (calls sys) + 1
             /\ _ensure_browser U self' sys' = (Ret tt, self', sys'))
    /\ (forall (kw1 kw2 : kwargs) (u : string)
               (b : Browser U) (p : Page U) (w1 w2 : World U),
           _page self = None ->
           url kw1 = Some u -> u <> EmptyString -> fst (_validate_url U u) = true ->
           camoufox_aenter U {| headless := true; browser := None |} (world sys)
           = (Ret b, w1) ->
           browser_new_page U b w1 = (Ret p, w2) ->
           let '(_, self1, sys1) := execute U "navigate" kw1 self sys in
           let '(_, _, sys2) := execute U "navigate" kw2 self1 sys1 in
           launches (calls sys1) = launches (calls sys) + 1
           /\ launches (calls sys2) = launches (calls sys) + 1).
Proof.
  intros U self sys. split; [|split].
  - intros p Hp. apply (ensure_with_page U self sys p Hp).
  - intros b p w1 w2 Hp Hl Hn.
    rewrite (ensure_without_page U self sys b p w1 w2 Hp Hl Hn).
    eexists; eexists. do 4 (split; [reflexivity|]). split.
    + cbn [calls]. change [CallLaunch true; CallNewPage]
        with ([CallLaunch true] ++ [CallNewPage])%list.
      rewrite app_assoc, !launches_snoc. cbn. lia.
    + apply (ensure_with_page U _ _ p). reflexivity.
  - intros kw1 kw2 u b p w1 w2 Hp Hu Hne Hv Hl Hn.
    pose proof (navigate_first U kw1 self sys u b p w1 w2 Hp Hu Hne Hv Hl Hn) as H1.
    destruct (execute U "navigate" kw1 self sys) as [[r1 self1] sys1].
    destruct H1 as [Hs1 Hc1].
    pose proof (navigate_with_page U kw2 self1 sys1 p) as H2.
    destruct (execute U "navigate" kw2 self1 sys1) as [[r2 self2] sys2].
    assert (Hp1 : _page self1 = Some p) by (rewrite Hs1; reflexivity).
    destruct (H2 Hp1) as [_ Hc2].
    split; [exact Hc1 | rewrite Hc2; exact Hc1].
Qed.

Lemma ensure_once_then_reuse_witness :
  let sc := all_well "<p>hi</p>" in
  let '(_, self1, sys1) :=
    execute (scripted sc) "navigate" (with_url "http://example.com/a") (fresh sc) (blank sc) in
  let '(_, _, sys2) :=
    execute (scripted sc) "navigate" (with_url "http://example.com/b") self1 sys1 in
  launches (calls sys1) = launches (calls (blank sc)) + 1
  /\ launches (calls sys2) = launches (calls (blank sc)) + 1.
Proof.
  intro sc.
  destruct (ensure_once_then_reuse (scripted sc) (fresh sc) (blank sc)) as (_ & _ & H).
  apply (H (with_url "http://example.com/a") (with_url "http://example.com/b")
           "http://example.com/a" tt tt "about:blank" "about:blank");
    solve [reflexivity | discriminate].
Defined.

(** The same two calls, run: one launch, one page, two loads. *)
Example two_navigates_one_launch :
  let sc := all_well "<p>hi</p>" in
  calls (snd (execute_all (scripted sc)
                          [("navigate", with_url "http://example.com/a");
                           ("navigate", with_url "http://example.com/b")]
                          (fresh sc) (blank sc)))
  = [CallLaunch true; CallNewPage;
     CallGoto "http://example.com/a" "load" 30000%Z; CallTitle;
     CallGoto "http://example.com/b" "load" 30000%Z; CallTitle].
Proof. reflexivity. Qed.

(** ** The outermost boundary of [execute] *)

(** C1: for every action name and every combination of arguments,
    [execute] returns a payload, and that payload carries either the
    success fields of the action or an [error] string, never both and
    never neither; whenever the body of the action raises, and so
    whenever a call on the upstream made by an action other than
    [close] raises, the payload is [{error: str(e)}] for the exception
    raised.  [made] is the list of calls that the action added to the
    record. *)
Theorem execute_never_raises :
  forall (U : Upstream) (action : string) (kw : kwargs) (self : Tool U) (sys : Sys U),
  exists (payload : json) (self' : Tool U) (sys' : Sys U) (made : list Call),
    execute U action kw self sys = (payload, self', sys')
    /\ calls sys' = (calls sys ++ made)%list
    /\ xorb (has_success_fields action payload) (has_error payload) = true
    /\ (forall e : exn,
           String.eqb action "close" = false ->
           last made CallNewPage = Raised e ->
           payload = JObj [("error", JStr (str e))])
    /\ (forall (e : exn) (self1 : Tool U) (sys1 : Sys U),
           dispatch U action kw self sys = (Raise e, self1, sys1) ->
           payload = JObj [("error", JStr (str e))] /\ self' = self1 /\ sys' = sys1).
Proof.
  intros U action [u wu t em mx fn sc] [ws mc dir h pg] sys.
  unfold has_success_fields, success_fields, truncate, execute, dispatch.
  by_action action; unfold_methods; cbn;
    repeat split_step;
    repeat match goal with
           | |- context [let (_, _) := ?x in _] => destruct x
           end;
    do 4 eexists;
    (split; [reflexivity|]);
    (split; [cbn; repeat rewrite <- app_assoc; cbn [app];
             first [reflexivity | symmetry; apply app_nil_r] |]);
    (split; [reflexivity|]);
    (split; [ intros exc Hclose Hlast; cbn in Hlast;
              first [ discriminate Hlast
                    | discriminate Hclose
                    | injection Hlast as <-; reflexivity ]
            | intros exc self1 sys1 Hraise;
              first [ discriminate Hraise
                    | injection Hraise as <- <- <-; repeat split ] ]).
Qed.

(** A load that times out: the exception raised by [page.goto] comes
    back as the [error] of the payload, and the session stays open. *)
Lemma execute_never_raises_witness :
  let sc := {| launch_raises := false; new_page_raises := false; goto_raises := true;
               shutdown_raises := false; html := "" |} in
  exists (payload : json) (self' : Tool (scripted sc)) (sys' : Sys (scripted sc))
         (made : list Call),
    execute (scripted sc) "navigate" (with_url "http://example.com") (fresh sc) (blank sc)
    = (payload, self', sys')
    /\ calls sys' = (calls (blank sc) ++ made)%list
    /\ xorb (has_success_fields "navigate" payload) (has_error payload) = true
    /\ (forall e : exn,
           String.eqb "navigate" "close" = false ->
           last made CallNewPage = Raised e ->
           payload = JObj [("error", JStr (str e))])
    /\ (forall (e : exn) (self1 : Tool (scripted sc)) (sys1 : Sys (scripted sc)),
           dispatch (scripted sc) "navigate" (with_url "http://example.com")
                    (fresh sc) (blank sc)
           = (Raise e, self1, sys1) ->
           payload = JObj [("error", JStr (str e))] /\ self' = self1 /\ sys' = sys1).
Proof.
  intro sc.
  apply (execute_never_raises (scripted sc) "navigate" (with_url "http://example.com")
                              (fresh sc) (blank sc)).
Defined.

(** The same call, run. *)
Example navigate_timeout_becomes_error :
  let sc := {| launch_raises := false; new_page_raises := false; goto_raises := true;
               shutdown_raises := false; html := "" |} in
  execute (scripted sc) "navigate" (with_url "http://example.com") (fresh sc) (blank sc)
  = (JObj [("error", JStr "Timeout 30000ms exceeded.")],
     loaded sc,
     {| world := "about:blank" : World (scripted sc);
        calls := [CallLaunch true; CallNewPage;
                  CallGoto "http://example.com" "load" 30000%Z;
                  Raised (Exception "Timeout 30000ms exceeded.")] |}).
Proof. reflexivity. Qed.

(** ** The session state across actions *)

Lemma page_needs_handle_step :
  forall (U : Upstream) (action : string) (kw : kwargs) (self : Tool U) (sys : Sys U),
    (page_present self = true -> handle_initialized self = true) ->
    page_present (tool_after (execute U action kw self sys)) = true ->
    handle_initialized (tool_after (execute U action kw self sys)) = true.
Proof.
  intros U action [u wu t em mx fn sc] [ws mc dir h pg] sys.
  unfold page_present, handle_initialized, tool_after, execute, dispatch, truncate.
  by_action action; unfold_methods; cbn;
    repeat split_step;
    repeat match goal with
           | |- context [let (_, _) := ?x in _] => destruct x
           end;
    cbn; intros; solve [auto | discriminate].
Qed.

Lemma session_invariant_step :
  forall (U : Upstream) (action : string) (kw : kwargs) (self : Tool U) (sys : Sys U),
    new_page_never_raises U ->
    session_invariant self ->
    session_invariant (tool_after (execute U action kw self sys)).
Proof.
  intros U action [u wu t em mx fn sc] [ws mc dir h pg] sys Hnp.
  unfold session_invariant, page_present, handle_initialized, tool_after,
    execute, dispatch, truncate.
  by_action action; unfold_methods; cbn;
    repeat split_step;
    repeat match goal with
           | |- context [let (_, _) := ?x in _] => destruct x
           | E : browser_new_page U ?b ?w = (Raise _, _) |- _ =>
               destruct (Hnp b w) as (? & ? & ?); congruence
           end;
    cbn; intros; solve [auto | discriminate].
Qed.

Lemma stays_absent_step :
  forall (U : Upstream) (action : string) (kw : kwargs) (self : Tool U) (sys : Sys U),
    reaches_ensure U (action, kw) = false ->
    _camoufox self = None /\ _page self = None ->
    execute U action kw self sys = (fst (fst (execute U action kw self sys)), self, sys).
Proof.
  intros U action [u wu t em mx fn sc] [ws mc dir h pg] sys Hre [Hh Hp].
  cbn in Hh, Hp. subst h pg.
  unfold reaches_ensure in Hre. cbn in Hre.
  unfold execute, dispatch.
  by_action action; cbn in Hre.
  - destruct u as [[|c u']|]; try reflexivity.
    unfold_methods; cbn. destruct (_validate_url U (String c u')) as [[|] msg];
      [discriminate | reflexivity].
  - reflexivity.
  - reflexivity.
  - destruct sc as [[|c s']|]; reflexivity.
  - reflexivity.
  - reflexivity.
Qed.

Lemma execute_all_cons :
  forall (U : Upstream) (action : string) (kw : kwargs) (reqs : list (string * kwargs))
         (self : Tool U) (sys : Sys U),
    tool_after_all (execute_all U ((action, kw) :: reqs) self sys)
    = tool_after_all (execute_all U reqs
                                  (tool_after (execute U action kw self sys))
                                  (snd (execute U action kw self sys))).
Proof.
  intros U action kw reqs self sys. cbn [execute_all].
  destruct (execute U action kw self sys) as [[r self'] sys']. cbn.
  destruct (execute_all U reqs self' sys') as [[rs self''] sys'']. reflexivity.
Qed.

Lemma page_needs_handle_all :
  forall (U : Upstream) (reqs : list (string * kwargs)) (self : Tool U) (sys : Sys U),
    (page_present self = true -> handle_initialized self = true) ->
    page_present (tool_after_all (execute_all U reqs self sys)) = true ->
    handle_initialized (tool_after_all (execute_all U reqs self sys)) = true.
Proof.
  intros U reqs. induction reqs as [|[action kw] reqs IH]; intros self sys Hinv.
  - exact Hinv.
  - rewrite execute_all_cons. apply IH.
    apply page_needs_handle_step. exact Hinv.
Qed.

Lemma session_invariant_all :
  forall (U : Upstream) (reqs : list (string * kwargs)) (self : Tool U) (sys : Sys U),
    new_page_never_raises U ->
    session_invariant self ->
    session_invariant (tool_after_all (execute_all U reqs self sys)).
Proof.
  intros U reqs. induction reqs as [|[action kw] reqs IH]; intros self sys Hnp Hinv.
  - exact Hinv.
  - rewrite execute_all_cons. apply IH; [exact Hnp|].
    apply session_invariant_step; assumption.
Qed.

Lemma stays_absent_all :
  forall (U : Upstream) (reqs : list (string * kwargs)) (self : Tool U) (sys : Sys U),
    forallb (fun r => negb (reaches_ensure U r)) reqs = true ->
    _camoufox self = None /\ _page self = None ->
    tool_after_all (execute_all U reqs self sys) = self.
Proof.
  intros U reqs. induction reqs as [|[action kw] reqs IH]; intros self sys Hno Habs.
  - reflexivity.
  - cbn [forallb] in Hno. apply andb_prop in Hno. destruct Hno as [Hhd Htl].
    apply negb_true_iff in Hhd.
    rewrite execute_all_cons.
    rewrite (stays_absent_step U action kw self sys Hhd Habs). cbn [tool_after snd fst].
    apply IH; [exact Htl | exact Habs].
Qed.

(** C7, as the code has it: after any sequence of actions on a new
    tool, whatever the upstream raises along the way, a page that is
    present comes with a handle that is present and initialized; the
    converse holds too on an upstream where opening a page does not
    raise; and both stay absent as long as no action is a [navigate]
    with a URL that is given and accepted. *)
Theorem session_state_after_actions :
  forall (U : Upstream) (workspace : Path U) (max_chars : Z) (screenshot_dir : string)
         (reqs : list (string * kwargs)) (sys : Sys U),
    let self := tool_after_all
                  (execute_all U reqs (init U workspace max_chars screenshot_dir) sys) in
    (page_present self = true -> handle_initialized self = true)
    /\ (new_page_never_raises U -> session_invariant self)
    /\ (forallb (fun r => negb (reaches_ensure U r)) reqs = true ->
        _camoufox self = None /\ _page self = None).
Proof.
  intros U ws mc dir reqs sys self. subst self. split; [|split].
  - apply page_needs_handle_all. cbn. discriminate.
  - intro Hnp. apply session_invariant_all; [exact Hnp | reflexivity].
  - intro Hno.
    rewrite stays_absent_all; [split; reflexivity | exact Hno | split; reflexivity].
Qed.

Lemma session_state_after_actions_witness :
  let sc := all_well "<p>hi</p>" in
  let self := tool_after_all
                (execute_all (scripted sc)
                             [("get_content", no_kwargs); ("navigate", with_url "not a url");
                              ("execute_js", with_script "1+1"); ("close", no_kwargs)]
                             (fresh sc) (blank sc)) in
  session_invariant self /\ _camoufox self = None /\ _page self = None.
Proof.
  intros sc self.
  destruct (session_state_after_actions
              (scripted sc) "/ws" 50000%Z "screenshots"
              [("get_content", no_kwargs); ("navigate", with_url "not a url");
               ("execute_js", with_script "1+1"); ("close", no_kwargs)]
              (blank sc)) as (_ & Hinv & Habs).
  split.
  - apply Hinv. intros b w. exists tt, w. reflexivity.
  - apply Habs. reflexivity.
Defined.

(** The invariant as the spec words it does not survive a page opening
    that raises after the launch succeeded: the handle is present and
    initialized, the page is absent, and [execute] has reported the
    error. *)
Lemma session_invariant_counterexample :
  let sc := {| launch_raises := false; new_page_raises := true; goto_raises := false;
               shutdown_raises := false; html := "" |} in
  let r := execute (scripted sc) "navigate" (with_url "http://example.com")
                   (fresh sc) (blank sc) in
  session_invariant (fresh sc)
  /\ fst (fst r) = JObj [("error", JStr "Target closed")]
  /\ handle_present (tool_after r) = true
  /\ handle_initialized (tool_after r) = true
  /\ page_present (tool_after r) = false
  /\ ~ session_invariant (tool_after r).
Proof.
  cbv zeta. repeat split. intro H. vm_compute in H. discriminate H.
Qed.

(** ** The character cap of [get_content] *)

Lemma length_take :
  forall (n : nat) (s : string), length (PyStr.take n s) = Nat.min n (length s).
Proof.
  induction n as [|n IH]; intros [|c s]; cbn; try reflexivity.
  rewrite IH. reflexivity.
Qed.

Lemma truncate_spec :
  forall (cap : Z) (pre : string),
    let '(truncated, text) := truncate cap pre in
    (truncated = true <-> (cap < Z.of_nat (length pre))%Z)
    /\ (truncated = false -> text = pre)
    /\ ((0 <= cap)%Z -> truncated = true -> Z.of_nat (length text) = cap)
    /\ ((0 <= cap)%Z -> text = PyStr.take (Z.to_nat cap) pre).
Proof.
  intros cap pre. unfold truncate.
  destruct (cap <? Z.of_nat (length pre))%Z eqn:E.
  - apply Z.ltb_lt in E. repeat split; try (intros; assumption || discriminate).
    + intros Hc _. unfold PyStr.slice_to.
      destruct (0 <=? cap)%Z eqn:E0; [|apply Z.leb_gt in E0; lia].
      rewrite length_take. lia.
    + intros Hc. unfold PyStr.slice_to.
      destruct (0 <=? cap)%Z eqn:E0; [reflexivity|apply Z.leb_gt in E0; lia].
  - apply Z.ltb_ge in E. repeat split; try (intros; reflexivity || discriminate || lia).
    intros Hc. clear -E Hc.
    assert (Hn : length pre <= Z.to_nat cap) by lia.
    revert Hn. generalize (Z.to_nat cap) as n. clear.
    induction pre as [|c pre IH]; intros [|n] H; cbn in *; try reflexivity; try lia.
    rewrite <- IH by lia. reflexivity.
Qed.

(** C2: a [get_content] call on a loaded page whose reads succeed
    returns the extraction payload in which [length] is the length of
    the returned [text]; [truncated] is true iff the text before the cut
    is longer than the effective cap, which is the [maxChars] of the
    request or else the default of the tool; an untruncated text is the
    whole text; and a truncated text has exactly the cap as its length
    (the cap being a count of characters, not negative).  With a cap of
    100 and a text of 500 characters, the text returned has 100
    characters, [truncated] is true and [length] is 100. *)
Theorem get_content_respects_cap :
  forall (U : Upstream) (kw : kwargs) (self : Tool U) (sys : Sys U) (p : Page U)
         (title html summary dtitle : string) (w1 w2 : World U),
    _page self = Some p ->
    page_title U p (world sys) = (Ret title, w1) ->
    page_content U p w1 = (Ret html, w2) ->
    doc_summary U html = Ret summary ->
    doc_title U html = Ret dtitle ->
    let cap := effective_max_chars U kw self in
    let pre := with_title dtitle (render (extract_mode kw) summary) in
    (maxChars kw = None -> cap = max_chars self)
    /\ (forall n : Z, maxChars kw = Some n -> n <> 0%Z -> cap = n)
    /\ exists (truncated : bool) (text : string),
        execute U "get_content" kw self sys
        = (JObj [("url", JStr (page_url U p w1));
                 ("title", JStr title);
                 ("extractor", JStr "readability");
                 ("truncated", JBool truncated);
                 ("length", JInt (Z.of_nat (length text)));
                 ("text", JStr text)],
           self,
           {| world := w2; calls := (calls sys ++ [CallTitle; CallContent])%list |})
        /\ (truncated = true <-> (cap < Z.of_nat (length pre))%Z)
        /\ (truncated = false -> text = pre)
        /\ ((0 <= cap)%Z -> truncated = true -> Z.of_nat (length text) = cap)
        /\ (cap = 100%Z -> length pre = 500 -> truncated = true /\ length text = 100).
Proof.
  intros U kw self sys p title html summary dtitle w1 w2 Hp Ht Hc Hs Hd cap pre.
  split; [|split].
  - intro Hm. subst cap. unfold effective_max_chars. rewrite Hm. reflexivity.
  - intros n Hm Hn. subst cap. unfold effective_max_chars. rewrite Hm.
    destruct (n =? 0)%Z eqn:E; [apply Z.eqb_eq in E; contradiction | reflexivity].
  - pose proof (truncate_spec cap pre) as Htr.
    destruct (truncate cap pre) as [truncated text] eqn:Etr.
    destruct Htr as (Hiff & Hwhole & Hcut & _).
    exists truncated, text. split; [|repeat split].
    + unfold execute, dispatch. cbn [String.eqb Ascii.eqb Bool.eqb].
      unfold _get_content, bind, get_self, await, peek, lift, ret.
      rewrite Hp. rewrite Ht. cbn [world calls recorded]. rewrite Hc, Hs, Hd.
      fold (extract_mode kw). fold cap. fold pre. rewrite Etr.
      cbn [world calls recorded]. rewrite <- app_assoc. reflexivity.
    + apply Hiff.
    + apply Hiff.
    + exact Hwhole.
    + exact Hcut.
    + apply Hiff. lia.
    + assert (Ht' : truncated = true) by (apply Hiff; lia).
      apply Nat2Z.inj. rewrite (Hcut ltac:(lia) Ht'). lia.
Qed.

Lemma get_content_respects_cap_witness :
  let sc := all_well five_hundred in
  let U := scripted sc in
  let cap := effective_max_chars U (with_max_chars 100) (loaded sc) in
  let pre := with_title "" (render "text" five_hundred) in
  exists (truncated : bool) (text : string),
    execute U "get_content" (with_max_chars 100) (loaded sc) (blank sc)
    = (JObj [("url", JStr "about:blank");
             ("title", JStr "Example Domain");
             ("extractor", JStr "readability");
             ("truncated", JBool truncated);
             ("length", JInt (Z.of_nat (length text)));
             ("text", JStr text)],
       loaded sc,
       {| world := "about:blank" : World U; calls := [CallTitle; CallContent] |})
    /\ (truncated = true <-> (cap < Z.of_nat (length pre))%Z)
    /\ (truncated = false -> text = pre)
    /\ ((0 <= cap)%Z -> truncated = true -> Z.of_nat (length text) = cap)
    /\ (cap = 100%Z -> length pre = 500 -> truncated = true /\ length text = 100).
Proof.
  intros sc U cap pre.
  apply (proj2 (proj2 (get_content_respects_cap
                         U (with_max_chars 100) (loaded sc) (blank sc) tt
                         "Example Domain" five_hundred five_hundred ""
                         "about:blank" "about:blank"
                         eq_refl eq_refl eq_refl eq_refl eq_refl))).
Defined.

(** The same call, run: 500 characters in, a cap of 100. *)
Example get_content_cap_100_of_500 :
  let sc := all_well five_hundred in
  fst (fst (execute (scripted sc) "get_content" (with_max_chars 100)
                    (loaded sc) (blank sc)))
  = JObj [("url", JStr "about:blank");
          ("title", JStr "Example Domain");
          ("extractor", JStr "readability");
          ("truncated", JBool true);
          ("length", JInt 100);
          ("text", JStr (PyStr.repeat_char "a" 100))].
Proof. vm_compute. reflexivity. Qed.

(** Python's slice counts a negative bound from the end, so a negative
    [maxChars] is not a cap: it drops that many characters. *)
Example get_content_negative_max_chars :
  let sc := all_well "0123456789" in
  fst (fst (execute (scripted sc) "get_content" (with_max_chars (-4))
                    (loaded sc) (blank sc)))
  = JObj [("url", JStr "about:blank");
          ("title", JStr "Example Domain");
          ("extractor", JStr "readability");
          ("truncated", JBool true);
          ("length", JInt 6);
          ("text", JStr "012345")].
Proof. vm_compute. reflexivity. Qed.

(** ** The markdown rendering *)

(** C3: [_to_markdown] is five substitutions, each one pass of
    [re.sub], in the order anchors, headings, list items, closing block
    tags, breaks, followed by [_strip_tags] and then [_normalize]; the
    markdown mode of [get_content] applies it to the summary of the
    extractor.  Each substitution rewrites its own construct, and the
    order shows: a link inside a heading is kept because anchors go
    first.  On the sample HTML the output has the line [# Title] and the
    link [[world](http://x)]. *)
Theorem to_markdown_five_ordered_substitutions :
  (forall html_str : string,
      _to_markdown html_str
      = _normalize
          (_strip_tags
             (Markdown.sub_breaks
                (Markdown.sub_block_ends
                   (Markdown.sub_items
                      (Markdown.sub_headings
                         (Markdown.sub_anchors html_str)))))))
  /\ (forall summary : string, render "markdown" summary = _to_markdown summary)
  /\ (Markdown.sub_anchors "<a href='http://x'>world</a>" = "[world](http://x)"
      /\ Markdown.sub_headings "<h3>Part</h3>" = PyStr.nl ++ "### Part" ++ PyStr.nl
      /\ Markdown.sub_items "<li>one</li>" = PyStr.nl ++ "- one"
      /\ Markdown.sub_block_ends "a</p>b</div>c</section>d</article>"
         = "a" ++ PyStr.nl ++ PyStr.nl ++ "b" ++ PyStr.nl ++ PyStr.nl
               ++ "c" ++ PyStr.nl ++ PyStr.nl ++ "d" ++ PyStr.nl ++ PyStr.nl
      /\ Markdown.sub_breaks "a<br>b<hr />c" = "a" ++ PyStr.nl ++ "b" ++ PyStr.nl ++ "c")
  /\ (Markdown.sub_headings (Markdown.sub_anchors heading_with_link)
      = PyStr.nl ++ "## [t](u)" ++ PyStr.nl
      /\ Markdown.sub_anchors (Markdown.sub_headings heading_with_link)
         = PyStr.nl ++ "## t" ++ PyStr.nl)
  /\ Markdown.substituted sample_html
     = "<article>" ++ PyStr.nl ++ "# Title" ++ PyStr.nl
                   ++ "<p>Hello [world](http://x)"
                   ++ PyStr.nl ++ PyStr.nl ++ PyStr.nl ++ PyStr.nl
  /\ _to_markdown sample_html = "# Title" ++ PyStr.nl ++ "Hello [world](http://x)"
  /\ In "# Title" (PyStr.lines (_to_markdown sample_html))
  /\ PyStr.contains "[world](http://x)" (_to_markdown sample_html) = true.
Proof.
  split; [intro; reflexivity|].
  split; [intro; reflexivity|].
  split; [repeat split; vm_compute; reflexivity|].
  split; [split; vm_compute; reflexivity|].
  split; [vm_compute; reflexivity|].
  split; [vm_compute; reflexivity|].
  split; [vm_compute; left; reflexivity | vm_compute; reflexivity].
Qed.

(** ** The declared parameters and a successful [navigate] *)

(** C9: the schema bounds [timeout] to 1000..120000 ms and lets
    [waitUntil] be load, domcontentloaded, networkidle or commit; a
    [navigate] with an accepted URL sends the page to that URL with the
    wait condition of the caller, or load, and the timeout of the
    caller, or 30000 ms; when the load and the title read succeed the
    payload records the requested URL, the URL of the page after the
    load, the status of the response, or null when there is none, and
    the title. *)
Theorem navigate_loads_and_records :
  forall (U : Upstream) (kw : kwargs) (self self1 : Tool U) (sys sys1 : Sys U)
         (u title : string) (p : Page U) (response : option Response) (w2 w3 : World U),
    url kw = Some u -> u <> EmptyString -> fst (_validate_url U u) = true ->
    _ensure_browser U self sys = (Ret tt, self1, sys1) ->
    _page self1 = Some p ->
    page_goto U p u (wait_until kw) (timeout_ms kw) (world sys1) = (Ret response, w2) ->
    page_title U p w2 = (Ret title, w3) ->
    (forall t : Z, within_declared_range "timeout" t = true <-> (1000 <= t <= 120000)%Z)
    /\ declared_enum "waitUntil"
       = Some (JArr [JStr "load"; JStr "domcontentloaded"; JStr "networkidle"; JStr "commit"])
    /\ (waitUntil kw = None -> wait_until kw = "load")
    /\ (timeout kw = None -> timeout_ms kw = 30000%Z)
    /\ (forall w : string, waitUntil kw = Some w -> wait_until kw = w)
    /\ (forall t : Z, timeout kw = Some t -> timeout_ms kw = t)
    /\ execute U "navigate" kw self sys
       = (JObj [("ok", JBool true);
                ("url", JStr u);
                ("finalUrl", JStr (page_url U p w2));
                ("status", status_of response);
                ("title", JStr title)],
          self1,
          {| world := w3;
             calls := (calls sys1 ++ [CallGoto u (wait_until kw) (timeout_ms kw);
                                      CallTitle])%list |}).
Proof.
  intros U kw self self1 sys sys1 u title p response w2 w3
         Hu Hne Hv Hens Hp Hgoto Htitle.
  split.
  { intro t. unfold within_declared_range. cbn.
    rewrite andb_true_iff, !Z.leb_le. reflexivity. }
  split; [reflexivity|].
  split; [intro H; unfold wait_until; rewrite H; reflexivity|].
  split; [intro H; unfold timeout_ms; rewrite H; reflexivity|].
  split; [intros w H; unfold wait_until; rewrite H; reflexivity|].
  split; [intros t H; unfold timeout_ms; rewrite H; reflexivity|].
  unfold execute, dispatch. cbn [String.eqb Ascii.eqb Bool.eqb].
  unfold _navigate. rewrite Hu.
  destruct u as [|c u']; [congruence|].
  destruct (_validate_url U (String c u')) as [[|] msg]; [|discriminate].
  cbn [negb]. fold (wait_until kw). fold (timeout_ms kw).
  unfold bind at 1. rewrite Hens.
  unfold the_page, bind, get_self, await, peek, ret.
  rewrite Hp, Hgoto. cbn [world calls recorded]. rewrite Hp. cbn [world calls].
  rewrite Hp. cbn [world calls]. rewrite Htitle.
  unfold status_of. cbn [recorded]. rewrite <- app_assoc. reflexivity.
Qed.

Lemma navigate_loads_and_records_witness :
  let sc := all_well "<p>hi</p>" in
  execute (scripted sc) "navigate" patient_request (fresh sc) (blank sc)
  = (JObj [("ok", JBool true);
           ("url", JStr "http://example.com");
           ("finalUrl", JStr "http://example.com");
           ("status", JInt 200);
           ("title", JStr "Example Domain")],
     loaded sc,
     {| world := "http://example.com" : World (scripted sc);
        calls := [CallLaunch true; CallNewPage;
                  CallGoto "http://example.com" "networkidle" 5000%Z; CallTitle] |}).
Proof.
  intro sc.
  apply (proj2 (proj2 (proj2 (proj2 (proj2 (proj2
          (navigate_loads_and_records
             (scripted sc) patient_request (fresh sc) (loaded sc) (blank sc)
             {| world := "about:blank" : World (scripted sc);
                calls := [CallLaunch true; CallNewPage] |}
             "http://example.com" "Example Domain" tt (Some {| status := 200%Z |})
             "http://example.com" "http://example.com"
             eq_refl ltac:(discriminate) eq_refl eq_refl eq_refl eq_refl eq_refl))))))).
Defined.

(** * Further properties of the tool *)

(** ** What each action may touch *)

(** X1: [get_content], [screenshot] and [execute_js] never change the
    tool: whatever the upstream returns or raises, the session state
    after the call is the one before it. *)
Theorem reading_actions_keep_the_session :
  forall (U : Upstream) (action : string) (kw : kwargs) (self : Tool U) (sys : Sys U),
    In action ["get_content"; "screenshot"; "execute_js"] ->
    tool_after (execute U action kw self sys) = self.
Proof.
  intros U action [u wu t em mx fn sc] [ws mc dir h pg] sys Hin.
  unfold tool_after, execute, dispatch, truncate.
  destruct Hin as [<- | [<- | [<- | []]]]; unfold_methods; cbn;
    repeat split_step;
    repeat match goal with
           | |- context [let (_, _) := ?x in _] => destruct x
           end;
    reflexivity.
Qed.

Lemma reading_actions_keep_the_session_witness :
  let sc := all_well "<p>hi</p>" in
  tool_after (execute (scripted sc) "screenshot" (with_filename "shot") (loaded sc) (blank sc))
  = loaded sc.
Proof.
  intro sc.
  apply (reading_actions_keep_the_session (scripted sc) "screenshot").
  right; left; reflexivity.
Defined.

(** X2: the record of calls only grows, and it shows which action may
    do what: only [navigate] launches the browser, opens a page or loads
    a URL, and only [close] shuts the browser down. *)
Theorem calls_by_action :
  forall (U : Upstream) (action : string) (kw : kwargs) (self : Tool U) (sys : Sys U),
  exists made : list Call,
    calls (snd (execute U action kw self sys)) = (calls sys ++ made)%list
    /\ (String.eqb action "navigate" = false ->
        forallb (fun c => negb (opens_or_moves c)) made = true)
    /\ (String.eqb action "close" = false ->
        forallb (fun c => negb (is_shutdown c)) made = true).
Proof.
  intros U action [u wu t em mx fn sc] [ws mc dir h pg] sys.
  unfold execute, dispatch, truncate.
  by_action action; unfold_methods; cbn;
    repeat split_step;
    repeat match goal with
           | |- context [let (_, _) := ?x in _] => destruct x
           end;
    eexists;
    (split; [cbn; repeat rewrite <- app_assoc; cbn [app];
             first [reflexivity | symmetry; apply app_nil_r] |]);
    (split; intro Hno; first [discriminate Hno | reflexivity]).
Qed.

Lemma calls_by_action_witness :
  let sc := all_well "<p>hi</p>" in
  exists made : list Call,
    calls (snd (execute (scripted sc) "get_content" no_kwargs (loaded sc) (blank sc)))
    = (calls (blank sc) ++ made)%list
    /\ (String.eqb "get_content" "navigate" = false ->
        forallb (fun c => negb (opens_or_moves c)) made = true)
    /\ (String.eqb "get_content" "close" = false ->
        forallb (fun c => negb (is_shutdown c)) made = true).
Proof.
  intro sc.
  apply (calls_by_action (scripted sc) "get_content" no_kwargs (loaded sc) (blank sc)).
Defined.

(** ** The schema and the dispatcher agree on the actions *)

Lemma declared_actions_are :
  declared_actions = ["navigate"; "get_content"; "screenshot"; "execute_js"; "close"].
Proof. reflexivity. Qed.

(** X3: the body of [execute] answers "Unknown action: <name>" exactly
    for the names that the schema does not enumerate, and then it
    touches neither the tool nor the world; every enumerated name has
    its own branch, and no branch returns that payload. *)
Theorem unknown_action_iff_not_declared :
  forall (U : Upstream) (action : string) (kw : kwargs) (self : Tool U) (sys : Sys U),
    (fst (fst (dispatch U action kw self sys))
     = Ret (JObj [("error", JStr ("Unknown action: " ++ action))])
     <-> ~ In action declared_actions)
    /\ (~ In action declared_actions ->
        execute U action kw self sys
        = (JObj [("error", JStr ("Unknown action: " ++ action))], self, sys)).
Proof.
  intros U action [u wu t em mx fn sc] [ws mc dir h pg] sys.
  rewrite declared_actions_are.
  assert (Hdec : forall name : string,
             String.eqb action name = true -> In name
               ["navigate"; "get_content"; "screenshot"; "execute_js"; "close"] ->
             ~ ~ In action ["navigate"; "get_content"; "screenshot"; "execute_js"; "close"]).
  { intros name E Hin Hnot. apply String.eqb_eq in E. subst name. exact (Hnot Hin). }
  assert (Hnot : String.eqb action "navigate" = false ->
                 String.eqb action "get_content" = false ->
                 String.eqb action "screenshot" = false ->
                 String.eqb action "execute_js" = false ->
                 String.eqb action "close" = false ->
                 ~ In action ["navigate"; "get_content"; "screenshot"; "execute_js"; "close"]).
  { intros E1 E2 E3 E4 E5 Hin. cbn in Hin.
    destruct Hin as [<- | [<- | [<- | [<- | [<- | []]]]]];
      match goal with
      | E : String.eqb ?s ?s = false |- _ => rewrite String.eqb_refl in E; discriminate E
      end. }
  unfold execute, dispatch, truncate.
  destruct (String.eqb action "navigate") eqn:E1;
    [| destruct (String.eqb action "get_content") eqn:E2;
       [| destruct (String.eqb action "screenshot") eqn:E3;
          [| destruct (String.eqb action "execute_js") eqn:E4;
             [| destruct (String.eqb action "close") eqn:E5 ]]]].
  6: { split; [split; [intros _; auto | reflexivity] | reflexivity]. }
  all: assert (Hin : ~ ~ In action
                       ["navigate"; "get_content"; "screenshot"; "execute_js"; "close"])
    by (eapply Hdec; [eassumption | cbn; tauto]).
  all: split; [| intro Hn; exfalso; exact (Hin Hn)].
  all: split; [| intro Hn; exfalso; exact (Hin Hn)].
  all: clear Hdec Hnot Hin.
  all: unfold_methods; cbn;
    repeat split_step;
    repeat match goal with
           | |- context [let (_, _) := ?x in _] => destruct x
           end;
    cbn; intro Heq; discriminate Heq.
Qed.

Lemma unknown_action_iff_not_declared_witness :
  let sc := all_well "" in
  execute (scripted sc) "Navigate" (with_url "http://example.com") (fresh sc) (blank sc)
  = (JObj [("error", JStr "Unknown action: Navigate")], fresh sc, blank sc).
Proof.
  intro sc.
  apply (proj2 (unknown_action_iff_not_declared
                  (scripted sc) "Navigate" (with_url "http://example.com")
                  (fresh sc) (blank sc))).
  rewrite declared_actions_are. cbn.
  intros [H | [H | [H | [H | [H | []]]]]]; discriminate H.
Defined.

(** X4: a [navigate] without a URL, or with the empty one, is answered
    "url is required for navigate action" before anything else is
    looked at: no session is acquired and an open one is left alone. *)
Theorem navigate_needs_a_url :
  forall (U : Upstream) (kw : kwargs) (self : Tool U) (sys : Sys U),
    url kw = None \/ url kw = Some EmptyString ->
    execute U "navigate" kw self sys
    = (JObj [("error", JStr "url is required for navigate action")], self, sys)
    /\ launches (calls (snd (execute U "navigate" kw self sys))) = launches (calls sys).
Proof.
  intros U kw self sys H.
  rewrite (navigate_without_url U kw self sys H). split; reflexivity.
Qed.

Lemma navigate_needs_a_url_witness :
  let sc := all_well "" in
  execute (scripted sc) "navigate" (with_url "") (fresh sc) (blank sc)
  = (JObj [("error", JStr "url is required for navigate action")], fresh sc, blank sc)
  /\ launches (calls (snd (execute (scripted sc) "navigate" (with_url "")
                                   (fresh sc) (blank sc))))
     = launches (calls (blank sc)).
Proof.
  intro sc.
  apply (navigate_needs_a_url (scripted sc) (with_url "") (fresh sc) (blank sc)).
  right; reflexivity.
Defined.

(** ** Navigation when the upstream raises *)

(** X5: when [page.goto] raises (a timeout, say) in a [navigate] that
    has its session, the answer is the error payload with the message
    of the exception, the title is not read, and the session stays as
    [_ensure_browser] left it: the page is still there for the next
    action. *)
Theorem navigate_load_raises :
  forall (U : Upstream) (kw : kwargs) (self self1 : Tool U) (sys sys1 : Sys U)
         (u : string) (p : Page U) (e : exn) (w2 : World U),
    url kw = Some u -> u <> EmptyString -> fst (_validate_url U u) = true ->
    _ensure_browser U self sys = (Ret tt, self1, sys1) ->
    _page self1 = Some p ->
    page_goto U p u (wait_until kw) (timeout_ms kw) (world sys1) = (Raise e, w2) ->
    execute U "navigate" kw self sys
    = (JObj [("error", JStr (str e))],
       self1,
       {| world := w2;
          calls := (calls sys1 ++ [CallGoto u (wait_until kw) (timeout_ms kw);
                                   Raised e])%list |}).
Proof.
  intros U kw self self1 sys sys1 u p e w2 Hu Hne Hv Hens Hp Hgoto.
  unfold execute, dispatch. cbn [String.eqb Ascii.eqb Bool.eqb].
  unfold _navigate. rewrite Hu.
  destruct u as [|c u']; [congruence|].
  destruct (_validate_url U (String c u')) as [[|] msg]; [|discriminate].
  cbn [negb]. fold (wait_until kw). fold (timeout_ms kw).
  unfold bind at 1. rewrite Hens.
  unfold the_page, bind, get_self, await, peek, ret.
  rewrite Hp, Hgoto. cbn [world calls recorded].
  rewrite <- app_assoc. reflexivity.
Qed.

Lemma navigate_load_raises_witness :
  let sc := {| launch_raises := false; new_page_raises := false; goto_raises := true;
               shutdown_raises := false; html := "" |} in
  execute (scripted sc) "navigate" (with_url "http://example.com") (loaded sc) (blank sc)
  = (JObj [("error", JStr "Timeout 30000ms exceeded.")],
     loaded sc,
     {| world := "about:blank" : World (scripted sc);
        calls := [CallGoto "http://example.com" "load" 30000%Z;
                  Raised (Exception "Timeout 30000ms exceeded.")] |}).
Proof.
  intro sc.
  apply (navigate_load_raises
           (scripted sc) (with_url "http://example.com") (loaded sc) (loaded sc)
           (blank sc) (blank sc) "http://example.com" tt
           (Exception "Timeout 30000ms exceeded.") "about:blank");
    solve [reflexivity | discriminate].
Defined.

Lemma navigate_launches_without_page :
  forall (U : Upstream) (kw : kwargs) (self : Tool U) (sys : Sys U) (u : string),
    _page self = None ->
    url kw = Some u -> u <> EmptyString -> fst (_validate_url U u) = true ->
    launches (calls (snd (execute U "navigate" kw self sys))) = launches (calls sys) + 1.
Proof.
  intros U [ku wu t em mx fn sc] [ws mc dir h pg] sys u Hp Hu Hne Hv.
  cbn in Hp, Hu. subst pg ku.
  destruct u as [|c u']; [congruence|].
  unfold_methods; cbn.
  destruct (_validate_url U (String c u')) as [[|] msg]; [|discriminate].
  cbn.
  repeat split_step; repeat rewrite launches_snoc; cbn; lia.
Qed.

(** X6: when the launch itself raises, [navigate] answers with the
    error, the handle stays stored although it holds no browser, and
    the page stays absent; so the next [navigate] launches again. *)
Theorem failed_launch_is_retried :
  forall (U : Upstream) (kw1 kw2 : kwargs) (self : Tool U) (sys : Sys U)
         (u1 u2 : string) (e : exn) (w1 : World U),
    _page self = None ->
    url kw1 = Some u1 -> u1 <> EmptyString -> fst (_validate_url U u1) = true ->
    url kw2 = Some u2 -> u2 <> EmptyString -> fst (_validate_url U u2) = true ->
    camoufox_aenter U {| headless := true; browser := None |} (world sys) = (Raise e, w1) ->
    let r1 := execute U "navigate" kw1 self sys in
    let r2 := execute U "navigate" kw2 (tool_after r1) (snd r1) in
    r1 = (JObj [("error", JStr (str e))],
          set_camoufox (Some {| headless := true; browser := None |}) self,
          {| world := w1; calls := (calls sys ++ [CallLaunch true; Raised e])%list |})
    /\ handle_present (tool_after r1) = true
    /\ handle_initialized (tool_after r1) = false
    /\ page_present (tool_after r1) = false
    /\ launches (calls (snd r2)) = launches (calls sys) + 2.
Proof.
  intros U kw1 kw2 self sys u1 u2 e w1 Hp Hu1 Hne1 Hv1 Hu2 Hne2 Hv2 Hl r1 r2.
  assert (H1 : r1 = (JObj [("error", JStr (str e))],
                     set_camoufox (Some {| headless := true; browser := None |}) self,
                     {| world := w1;
                        calls := (calls sys ++ [CallLaunch true; Raised e])%list |})).
  { subst r1. destruct kw1 as [ku wu t em mx fn sc]. destruct self as [ws mc dir h pg].
    cbn in Hp, Hu1. subst pg ku.
    destruct u1 as [|c u']; [congruence|].
    unfold_methods; cbn.
    destruct (_validate_url U (String c u')) as [[|] msg]; [|discriminate].
    cbn. rewrite Hl. cbn. rewrite <- app_assoc. reflexivity. }
  split; [exact H1|].
  assert (Hp1 : _page (tool_after r1) = None) by (rewrite H1; cbn; exact Hp).
  repeat split.
  - rewrite H1. reflexivity.
  - rewrite H1. reflexivity.
  - unfold page_present. rewrite Hp1. reflexivity.
  - subst r2.
    rewrite (navigate_launches_without_page U kw2 (tool_after r1) (snd r1) u2 Hp1 Hu2 Hne2 Hv2).
    rewrite H1. cbn [snd calls].
    change [CallLaunch true; Raised e] with ([CallLaunch true] ++ [Raised e])%list.
    rewrite app_assoc, !launches_snoc. cbn. lia.
Qed.

Lemma failed_launch_is_retried_witness :
  let sc := {| launch_raises := true; new_page_raises := false; goto_raises := false;
               shutdown_raises := false; html := "" |} in
  let r1 := execute (scripted sc) "navigate" (with_url "http://example.com/a")
                    (fresh sc) (blank sc) in
  let r2 := execute (scripted sc) "navigate" (with_url "http://example.com/b")
                    (tool_after r1) (snd r1) in
  r1 = (JObj [("error", JStr "browser executable not found")],
        @set_camoufox (scripted sc) (Some {| headless := true; browser := None |}) (fresh sc),
        {| world := "about:blank" : World (scripted sc);
           calls := [CallLaunch true; Raised (Exception "browser executable not found")] |})
  /\ handle_present (tool_after r1) = true
  /\ handle_initialized (tool_after r1) = false
  /\ page_present (tool_after r1) = false
  /\ launches (calls (snd r2)) = launches (calls (blank sc)) + 2.
Proof.
  intro sc.
  apply (failed_launch_is_retried
           (scripted sc) (with_url "http://example.com/a") (with_url "http://example.com/b")
           (fresh sc) (blank sc) "http://example.com/a" "http://example.com/b"
           (Exception "browser executable not found") "about:blank");
    solve [reflexivity | discriminate].
Defined.

(** X7: a [navigate] that finds a handle stored but no page (the state
    a failed launch or a failed page opening leaves) does not shut that
    handle down: it stores a new handle over it and launches again. *)
Theorem stale_handle_is_replaced :
  forall (U : Upstream) (kw : kwargs) (self : Tool U) (sys : Sys U) (u : string)
         (h : AsyncCamoufox (Browser U)) (b : Browser U) (p : Page U) (w1 w2 : World U),
    _camoufox self = Some h -> _page self = None ->
    url kw = Some u -> u <> EmptyString -> fst (_validate_url U u) = true ->
    camoufox_aenter U {| headless := true; browser := None |} (world sys) = (Ret b, w1) ->
    browser_new_page U b w1 = (Ret p, w2) ->
    let r := execute U "navigate" kw self sys in
    _camoufox (tool_after r) = Some {| headless := true; browser := Some b |}
    /\ _page (tool_after r) = Some p
    /\ exists made : list Call,
        calls (snd r) = (calls sys ++ CallLaunch true :: CallNewPage :: made)%list
        /\ forallb (fun c => negb (is_shutdown c) && negb (is_launch c)) made = true.
Proof.
  intros U [ku wu t em mx fn sc] [ws mc dir hh pg] sys u h b p w1 w2
         Hh Hp Hu Hne Hv Hl Hn r. subst r.
  cbn in Hh, Hp, Hu. subst hh pg ku.
  destruct u as [|c u']; [congruence|].
  unfold tool_after. unfold_methods; cbn.
  destruct (_validate_url U (String c u')) as [[|] msg]; [|discriminate].
  cbn. rewrite Hl. cbn. rewrite Hn. cbn.
  repeat split_step;
    (split; [reflexivity|]); (split; [reflexivity|]);
    eexists; (split; [repeat rewrite <- app_assoc; cbn [app]; reflexivity | reflexivity]).
Qed.

Lemma stale_handle_is_replaced_witness :
  let sc := all_well "" in
  let stale := @set_camoufox (scripted sc)
                 (Some {| headless := true; browser := Some tt |}) (fresh sc) in
  let r := execute (scripted sc) "navigate" (with_url "http://example.com") stale (blank sc) in
  _camoufox (tool_after r) = Some {| headless := true; browser := Some tt |}
  /\ _page (tool_after r) = Some tt
  /\ exists made : list Call,
      calls (snd r) = (calls (blank sc) ++ CallLaunch true :: CallNewPage :: made)%list
      /\ forallb (fun c => negb (is_shutdown c) && negb (is_launch c)) made = true.
Proof.
  intros sc stale.
  apply (stale_handle_is_replaced
           (scripted sc) (with_url "http://example.com") stale (blank sc)
           "http://example.com" {| headless := true; browser := Some tt |}
           tt tt "about:blank" "about:blank");
    solve [reflexivity | discriminate].
Defined.

(** ** Closing, and what follows a close *)

Lemma close_shuts_down_aux :
  forall (U : Upstream) (kw : kwargs) (self : Tool U) (sys : Sys U),
    match _camoufox self with
    | None => execute U "close" kw self sys = (closed_result, cleared self, sys)
    | Some h =>
        execute U "close" kw self sys
        = (closed_result, cleared self,
           {| world := snd (camoufox_aexit U h (world sys));
              calls := recorded (calls sys ++ [CallShutdown])
                                (fst (camoufox_aexit U h (world sys))) |})
    end.
Proof.
  intros U kw [ws mc dir h pg] sys. cbn [_camoufox].
  unfold execute. rewrite dispatch_close.
  destruct h as [h|]; unfold_methods; cbn; [|reflexivity].
  destruct (camoufox_aexit U h (world sys)) as [[[]|e] w]; reflexivity.
Qed.

(** X8: the close action calls [__aexit__] once on the stored handle,
    whether or not that handle ever launched a browser, and records
    what it raised without passing it on; with no handle stored it
    calls nothing.  Either way the answer is the ok payload and both
    the handle and the page are cleared. *)
Theorem close_shuts_down_the_stored_handle :
  forall (U : Upstream) (kw : kwargs) (self : Tool U) (sys : Sys U),
    match _camoufox self with
    | None => execute U "close" kw self sys = (closed_result, cleared self, sys)
    | Some h =>
        execute U "close" kw self sys
        = (closed_result, cleared self,
           {| world := snd (camoufox_aexit U h (world sys));
              calls := recorded (calls sys ++ [CallShutdown])
                                (fst (camoufox_aexit U h (world sys))) |})
    end.
Proof.
  intros U kw self sys. exact (close_shuts_down_aux U kw self sys).
Qed.

(** X9: right after a close, whatever the session was, the actions that
    need a page answer "No page loaded. Use navigate first." and call
    nothing. *)
Theorem closed_session_has_no_page :
  forall (U : Upstream) (kw0 kw : kwargs) (action : string) (self : Tool U) (sys : Sys U),
    In action ["get_content"; "screenshot"; "execute_js"] ->
    (action = "execute_js" -> exists c s, script kw = Some (String c s)) ->
    let r0 := execute U "close" kw0 self sys in
    execute U action kw (tool_after r0) (snd r0)
    = (JObj [("error", JStr "No page loaded. Use navigate first.")],
       cleared self, snd r0).
Proof.
  intros U kw0 kw action self sys Hin Hscript r0.
  destruct (execute_close U kw0 self sys) as [sys' H]. subst r0. rewrite H.
  cbn [tool_after fst snd].
  destruct Hin as [<- | [<- | [<- | []]]].
  - destruct self as [ws mc dir h pg]. reflexivity.
  - destruct self as [ws mc dir h pg]. reflexivity.
  - destruct (Hscript eq_refl) as (c & s & Hs).
    destruct self as [ws mc dir h pg].
    unfold_methods; cbn. rewrite Hs. reflexivity.
Qed.

Lemma closed_session_has_no_page_witness :
  let sc := all_well "<p>hi</p>" in
  let r0 := execute (scripted sc) "close" no_kwargs (loaded sc) (blank sc) in
  execute (scripted sc) "execute_js" (with_script "document.title") (tool_after r0) (snd r0)
  = (JObj [("error", JStr "No page loaded. Use navigate first.")],
     cleared (loaded sc), snd r0).
Proof.
  intro sc.
  apply (closed_session_has_no_page (scripted sc) no_kwargs (with_script "document.title")
                                    "execute_js" (loaded sc) (blank sc)).
  - right; right; left; reflexivity.
  - intros _. exists "d"%char, "ocument.title". reflexivity.
Defined.

(** X10: after a close, the next [navigate] with an accepted URL
    launches the browser again, whatever the upstream then does. *)
Theorem navigate_after_close_relaunches :
  forall (U : Upstream) (kw0 kw : kwargs) (self : Tool U) (sys : Sys U) (u : string),
    url kw = Some u -> u <> EmptyString -> fst (_validate_url U u) = true ->
    let r0 := execute U "close" kw0 self sys in
    let r1 := execute U "navigate" kw (tool_after r0) (snd r0) in
    launches (calls (snd r0)) = launches (calls sys)
    /\ launches (calls (snd r1)) = launches (calls sys) + 1.
Proof.
  intros U kw0 kw self sys u Hu Hne Hv r0 r1.
  assert (H0 : launches (calls (snd r0)) = launches (calls sys)).
  { subst r0. pose proof (close_shuts_down_aux U kw0 self sys) as H.
    destruct (_camoufox self) as [h|]; rewrite H; cbn [snd calls]; [|reflexivity].
    destruct (fst (camoufox_aexit U h (world sys))); cbn [recorded];
      repeat rewrite launches_snoc; cbn; lia. }
  split; [exact H0|].
  subst r1. rewrite <- H0.
  apply (navigate_launches_without_page U kw (tool_after r0) (snd r0) u); try assumption.
  subst r0. destruct (execute_close U kw0 self sys) as [sys' H]. rewrite H.
  destruct self; reflexivity.
Qed.

Lemma navigate_after_close_relaunches_witness :
  let sc := all_well "<p>hi</p>" in
  let r0 := execute (scripted sc) "close" no_kwargs (loaded sc) (blank sc) in
  let r1 := execute (scripted sc) "navigate" (with_url "http://example.com")
                    (tool_after r0) (snd r0) in
  launches (calls (snd r0)) = launches (calls (blank sc))
  /\ launches (calls (snd r1)) = launches (calls (blank sc)) + 1.
Proof.
  intro sc.
  apply (navigate_after_close_relaunches
           (scripted sc) no_kwargs (with_url "http://example.com") (loaded sc) (blank sc)
           "http://example.com");
    solve [reflexivity | discriminate].
Defined.

(** ** Running a script *)

(** X11: with a script and a page, [execute_js] evaluates that script
    once on that page; the value comes back under [result], an
    exception comes back as the error payload, and the tool is left
    untouched either way. *)
Theorem execute_js_evaluates_the_script :
  forall (U : Upstream) (kw : kwargs) (self : Tool U) (sys : Sys U)
         (p : Page U) (c : ascii) (s : string),
    script kw = Some (String c s) ->
    _page self = Some p ->
    execute U "execute_js" kw self sys
    = match page_evaluate U p (String c s) (world sys) with
      | (Ret v, w) =>
          (JObj [("ok", JBool true); ("result", v)], self,
           {| world := w; calls := (calls sys ++ [CallEvaluate (String c s)])%list |})
      | (Raise e, w) =>
          (JObj [("error", JStr (str e))], self,
           {| world := w;
              calls := (calls sys ++ [CallEvaluate (String c s); Raised e])%list |})
      end.
Proof.
  intros U [ku wu t em mx fn sc] [ws mc dir h pg] sys p c s Hs Hp.
  cbn in Hs, Hp. subst sc pg.
  unfold_methods; cbn.
  destruct (page_evaluate U p (String c s) (world sys)) as [[v|e] w]; cbn;
    [reflexivity | rewrite <- app_assoc; reflexivity].
Qed.

Lemma execute_js_evaluates_the_script_witness :
  let sc := all_well "<p>hi</p>" in
  execute (scripted sc) "execute_js" (with_script "1+1") (loaded sc) (blank sc)
  = (JObj [("ok", JBool true); ("result", JStr "1+1")], loaded sc,
     {| world := "about:blank" : World (scripted sc); calls := [CallEvaluate "1+1"] |}).
Proof.
  intro sc.
  apply (execute_js_evaluates_the_script
           (scripted sc) (with_script "1+1") (loaded sc) (blank sc) tt "1"%char "+1");
    reflexivity.
Defined.

(** ** Taking a screenshot *)

Lemma length_app_string :
  forall a b : string, length (a ++ b) = length a + length b.
Proof. induction a as [|c a IH]; intro b; cbn; [reflexivity | rewrite IH; reflexivity]. Qed.

Lemma drop_app_length :
  forall a b : string, PyStr.drop (length a) (a ++ b) = b.
Proof. induction a as [|c a IH]; intro b; cbn; [destruct b; reflexivity | apply IH]. Qed.

Lemma endswith_app :
  forall a p : string, PyStr.endswith p (a ++ p) = true.
Proof.
  intros a p. unfold PyStr.endswith. rewrite length_app_string.
  replace (length a + length p - length p) with (length a) by lia.
  rewrite drop_app_length, String.eqb_refl.
  rewrite andb_true_r. apply Nat.leb_le. lia.
Qed.

(** X12: on a loaded page, when the directory can be made and the
    capture succeeds, [screenshot] saves a full-page capture under
    workspace / screenshot_dir / name and answers with that path and
    the URL of the page.  The name always ends in ".png": a given name
    that has the suffix is kept, one that lacks it gets it, and without
    a name (or with the empty one) it is screenshot_<seconds>.png. *)
Theorem screenshot_saves_a_png :
  forall (U : Upstream) (kw : kwargs) (self : Tool U) (sys : Sys U)
         (p : Page U) (w1 : World U),
    _page self = Some p ->
    path_mkdir U (path_div U (workspace self) (screenshot_dir self)) (world sys)
    = (Ret tt, w1) ->
    (forall path : string, exists w2, page_screenshot U p path true w1 = (Ret tt, w2)) ->
    exists (name : string) (w2 : World U),
      let path := path_str U (path_div U (path_div U (workspace self) (screenshot_dir self))
                                       name) in
      execute U "screenshot" kw self sys
      = (JObj [("ok", JBool true); ("path", JStr path); ("url", JStr (page_url U p w2))],
         self,
         {| world := w2; calls := (calls sys ++ [CallScreenshot path true])%list |})
      /\ page_screenshot U p path true w1 = (Ret tt, w2)
      /\ PyStr.endswith ".png" name = true
      /\ (forall f : string,
             filename kw = Some f -> f <> EmptyString ->
             name = if PyStr.endswith ".png" f then f else f ++ ".png")
      /\ (filename kw = None \/ filename kw = Some EmptyString ->
          name = "screenshot_" ++ PyStr.of_Z (time_time U w1) ++ ".png").
Proof.
  intros U [ku wu t em mx fn sc] [ws mc dir h pg] sys p w1 Hp Hmk Hshot.
  cbn in Hp, Hmk. subst pg.
  assert (Hdefault : PyStr.endswith ".png"
                       ("screenshot_" ++ PyStr.of_Z (time_time U w1) ++ ".png") = true).
  { change ("screenshot_" ++ PyStr.of_Z (time_time U w1) ++ ".png")
      with (String "s" (String "c" (String "r" (String "e" (String "e" (String "n" (String "s"
           (String "h" (String "o" (String "t" (String "_"
             (PyStr.of_Z (time_time U w1) ++ ".png")))))))))))).
    change (String "s" (String "c" (String "r" (String "e" (String "e" (String "n" (String "s"
           (String "h" (String "o" (String "t" (String "_"
             (PyStr.of_Z (time_time U w1) ++ ".png"))))))))))))
      with (("screenshot_" ++ PyStr.of_Z (time_time U w1)) ++ ".png").
    apply endswith_app. }
  unfold execute, dispatch. cbn [String.eqb Ascii.eqb Bool.eqb].
  unfold _screenshot, bind, get_self, perform, peek, await, ret.
  cbn [_page workspace screenshot_dir filename]. rewrite Hmk. cbn [recorded world calls].
  destruct fn as [[|c f]|].
  - cbn [world]. rewrite Hdefault. cbn [negb].
    destruct (Hshot (path_str U (path_div U (path_div U ws dir)
                ("screenshot_" ++ PyStr.of_Z (time_time U w1) ++ ".png")))) as [w2 Hs].
    exists ("screenshot_" ++ PyStr.of_Z (time_time U w1) ++ ".png"), w2.
    cbv zeta. rewrite Hs. cbn [recorded world calls].
    split; [reflexivity|]. split; [reflexivity|]. split; [exact Hdefault|]. split.
    + intros f Hf Hne. injection Hf as <-. congruence.
    + intros _. reflexivity.
  - destruct (PyStr.endswith ".png" (String c f)) eqn:E; cbn [negb].
    + destruct (Hshot (path_str U (path_div U (path_div U ws dir) (String c f)))) as [w2 Hs].
      exists (String c f), w2. cbv zeta. cbn [world calls]. rewrite Hs.
      cbn [recorded world calls].
      split; [reflexivity|]. split; [reflexivity|]. split; [exact E|]. split.
      * intros f' Hf _. injection Hf as <-. rewrite E. reflexivity.
      * intros [Hf | Hf]; discriminate Hf.
    + destruct (Hshot (path_str U (path_div U (path_div U ws dir) (String c f ++ ".png"))))
        as [w2 Hs].
      exists (String c f ++ ".png"), w2. cbv zeta. cbn [world calls]. rewrite Hs.
      cbn [recorded world calls].
      split; [reflexivity|]. split; [reflexivity|]. split; [apply endswith_app|]. split.
      * intros f' Hf _. injection Hf as <-. rewrite E. reflexivity.
      * intros [Hf | Hf]; discriminate Hf.
  - cbn [world]. rewrite Hdefault. cbn [negb].
    destruct (Hshot (path_str U (path_div U (path_div U ws dir)
                ("screenshot_" ++ PyStr.of_Z (time_time U w1) ++ ".png")))) as [w2 Hs].
    exists ("screenshot_" ++ PyStr.of_Z (time_time U w1) ++ ".png"), w2.
    cbv zeta. rewrite Hs. cbn [recorded world calls].
    split; [reflexivity|]. split; [reflexivity|]. split; [exact Hdefault|]. split.
    + intros f Hf. discriminate Hf.
    + intros _. reflexivity.
Qed.

Lemma screenshot_saves_a_png_witness :
  let sc := all_well "<p>hi</p>" in
  let U := scripted sc in
  exists (name : string) (w2 : World U),
    let path := path_str U (path_div U (path_div U (workspace (loaded sc))
                                                 (screenshot_dir (loaded sc))) name) in
    execute U "screenshot" (with_filename "front page") (loaded sc) (blank sc)
    = (JObj [("ok", JBool true); ("path", JStr path); ("url", JStr (page_url U tt w2))],
       loaded sc,
       {| world := w2; calls := (calls (blank sc) ++ [CallScreenshot path true])%list |})
    /\ page_screenshot U tt path true "about:blank" = (Ret tt, w2)
    /\ PyStr.endswith ".png" name = true
    /\ (forall f : string,
           filename (with_filename "front page") = Some f -> f <> EmptyString ->
           name = if PyStr.endswith ".png" f then f else f ++ ".png")
    /\ (filename (with_filename "front page") = None
        \/ filename (with_filename "front page") = Some EmptyString ->
        name = "screenshot_" ++ PyStr.of_Z (time_time U "about:blank") ++ ".png").
Proof.
  intros sc U.
  apply (screenshot_saves_a_png U (with_filename "front page") (loaded sc) (blank sc)
                                tt "about:blank").
  - reflexivity.
  - reflexivity.
  - intro path. exists "about:blank". reflexivity.
Defined.

(** The same call, run, and the call without a name. *)
Example screenshot_names :
  let sc := all_well "<p>hi</p>" in
  fst (fst (execute (scripted sc) "screenshot" (with_filename "front page")
                    (loaded sc) (blank sc)))
  = JObj [("ok", JBool true);
          ("path", JStr "/ws/screenshots/front page.png");
          ("url", JStr "about:blank")]
  /\ fst (fst (execute (scripted sc) "screenshot" no_kwargs (loaded sc) (blank sc)))
     = JObj [("ok", JBool true);
             ("path", JStr "/ws/screenshots/screenshot_1700000000.png");
             ("url", JStr "about:blank")].
Proof. split; vm_compute; reflexivity. Qed.

(** X13: when the screenshot directory cannot be made, [screenshot]
    answers with the error of [mkdir] and no capture is attempted. *)
Theorem screenshot_needs_its_directory :
  forall (U : Upstream) (kw : kwargs) (self : Tool U) (sys : Sys U)
         (p : Page U) (e : exn) (w1 : World U),
    _page self = Some p ->
    path_mkdir U (path_div U (workspace self) (screenshot_dir self)) (world sys)
    = (Raise e, w1) ->
    execute U "screenshot" kw self sys
    = (JObj [("error", JStr (str e))], self,
       {| world := w1; calls := (calls sys ++ [Raised e])%list |}).
Proof.
  intros U [ku wu t em mx fn sc] [ws mc dir h pg] sys p e w1 Hp Hmk.
  cbn in Hp, Hmk. subst pg.
  unfold_methods; cbn. rewrite Hmk. reflexivity.
Qed.

Lemma screenshot_needs_its_directory_witness :
  let U := read_only_disk (all_well "") in
  let self : Tool U :=
    @set_page U (Some tt)
              (@set_camoufox U (Some {| headless := true; browser := Some tt |})
                             (init_default U "/ws")) in
  let sys : Sys U := {| world := "about:blank" : World U; calls := [] |} in
  execute U "screenshot" no_kwargs self sys
  = (JObj [("error", JStr "Read-only file system")], self,
     {| world := "about:blank" : World U;
        calls := [Raised (Exception "Read-only file system")] |}).
Proof.
  intros U self sys.
  apply (screenshot_needs_its_directory U no_kwargs self sys tt
                                        (Exception "Read-only file system") "about:blank");
    reflexivity.
Defined.

(** ** Reading the content: modes, caps and the title *)

(** X14: any [extractMode] other than "markdown", known to the schema
    or not, is read as text mode: the call behaves as if no mode had
    been passed. *)
Theorem get_content_mode_falls_back_to_text :
  forall (U : Upstream) (u wu : option string) (t : option Z) (m : string)
         (mx : option Z) (fn sc : option string) (self : Tool U) (sys : Sys U),
    m <> "markdown" ->
    execute U "get_content"
            {| url := u; waitUntil := wu; timeout := t; extractMode := Some m;
               maxChars := mx; filename := fn; script := sc |} self sys
    = execute U "get_content"
              {| url := u; waitUntil := wu; timeout := t; extractMode := None;
                 maxChars := mx; filename := fn; script := sc |} self sys.
Proof.
  intros U u wu t m mx fn sc self sys Hm.
  apply String.eqb_neq in Hm.
  unfold execute, dispatch. cbn [String.eqb Ascii.eqb Bool.eqb].
  unfold _get_content, render. cbn [extractMode]. rewrite Hm.
  reflexivity.
Qed.

Lemma get_content_mode_falls_back_to_text_witness :
  let sc := all_well "<h1>T</h1><p>body</p>" in
  execute (scripted sc) "get_content" (with_mode "html") (loaded sc) (blank sc)
  = execute (scripted sc) "get_content" no_kwargs (loaded sc) (blank sc).
Proof.
  intro sc.
  apply (get_content_mode_falls_back_to_text
           (scripted sc) None None None "html" None None None (loaded sc) (blank sc)).
  discriminate.
Defined.

(** X15: a [maxChars] of 0 is no cap of its own: the call behaves as if
    [maxChars] had not been passed, and the default of the tool
    applies. *)
Theorem get_content_zero_max_chars_is_default :
  forall (U : Upstream) (u wu : option string) (t : option Z) (em : option string)
         (fn sc : option string) (self : Tool U) (sys : Sys U),
    execute U "get_content"
            {| url := u; waitUntil := wu; timeout := t; extractMode := em;
               maxChars := Some 0%Z; filename := fn; script := sc |} self sys
    = execute U "get_content"
              {| url := u; waitUntil := wu; timeout := t; extractMode := em;
                 maxChars := None; filename := fn; script := sc |} self sys.
Proof. intros. reflexivity. Qed.

Lemma get_content_payload :
  forall (U : Upstream) (kw : kwargs) (self : Tool U) (sys : Sys U) (p : Page U)
         (title html summary dtitle : string) (w1 w2 : World U),
    _page self = Some p ->
    page_title U p (world sys) = (Ret title, w1) ->
    page_content U p w1 = (Ret html, w2) ->
    doc_summary U html = Ret summary ->
    doc_title U html = Ret dtitle ->
    let cut := truncate (effective_max_chars U kw self)
                        (with_title dtitle (render (extract_mode kw) summary)) in
    execute U "get_content" kw self sys
    = (JObj [("url", JStr (page_url U p w1));
             ("title", JStr title);
             ("extractor", JStr "readability");
             ("truncated", JBool (fst cut));
             ("length", JInt (Z.of_nat (length (snd cut))));
             ("text", JStr (snd cut))],
       self,
       {| world := w2; calls := (calls sys ++ [CallTitle; CallContent])%list |}).
Proof.
  intros U kw self sys p title html summary dtitle w1 w2 Hp Ht Hc Hs Hd cut.
  unfold execute, dispatch. cbn [String.eqb Ascii.eqb Bool.eqb].
  unfold _get_content, bind, get_self, await, peek, lift, ret.
  rewrite Hp. rewrite Ht. cbn [world calls recorded]. rewrite Hc, Hs, Hd.
  fold (extract_mode kw). fold cut.
  destruct cut as [truncated text]. cbn [world calls recorded fst snd].
  rewrite <- app_assoc. reflexivity.
Qed.

Lemma startswith_take :
  forall (n : nat) (s : string), PyStr.startswith (PyStr.take n s) s = true.
Proof.
  induction n as [|n IH]; intros [|c s]; cbn; try reflexivity.
  rewrite Ascii.eqb_refl. apply IH.
Qed.

Lemma startswith_refl : forall s : string, PyStr.startswith s s = true.
Proof.
  induction s as [|c s IH]; cbn; [reflexivity | rewrite Ascii.eqb_refl; exact IH].
Qed.

(** X16: whatever the cap, the text that [get_content] returns is a
    prefix of the full text, and the full text is the rendering of the
    summary with, when the extractor found a title, the heading
    "# <title>" and an empty line put before it; so the heading counts
    against the cap.  With a cap that is not negative the text returned
    is never longer than the cap. *)
Theorem get_content_returns_a_prefix :
  forall (U : Upstream) (kw : kwargs) (self : Tool U) (sys : Sys U) (p : Page U)
         (title html summary dtitle : string) (w1 w2 : World U),
    _page self = Some p ->
    page_title U p (world sys) = (Ret title, w1) ->
    page_content U p w1 = (Ret html, w2) ->
    doc_summary U html = Ret summary ->
    doc_title U html = Ret dtitle ->
    let body := if String.eqb (extract_mode kw) "markdown"
                then _to_markdown summary
                else _normalize (_strip_tags summary) in
    let full := match dtitle with
                | EmptyString => body
                | _ => "# " ++ dtitle ++ PyStr.nl ++ PyStr.nl ++ body
                end in
    exists (truncated : bool) (text : string),
      execute U "get_content" kw self sys
      = (JObj [("url", JStr (page_url U p w1));
               ("title", JStr title);
               ("extractor", JStr "readability");
               ("truncated", JBool truncated);
               ("length", JInt (Z.of_nat (length text)));
               ("text", JStr text)],
         self,
         {| world := w2; calls := (calls sys ++ [CallTitle; CallContent])%list |})
      /\ PyStr.startswith text full = true
      /\ ((0 <= effective_max_chars U kw self)%Z ->
          (Z.of_nat (length text) <= effective_max_chars U kw self)%Z)
      /\ (dtitle <> EmptyString ->
          length full = length body + length dtitle + 4).
Proof.
  intros U kw self sys p title html summary dtitle w1 w2 Hp Ht Hc Hs Hd body full.
  pose proof (get_content_payload U kw self sys p title html summary dtitle w1 w2
                                  Hp Ht Hc Hs Hd) as Hpay.
  cbv zeta in Hpay.
  assert (Hfull : with_title dtitle (render (extract_mode kw) summary) = full).
  { subst full body. unfold with_title, render. destruct dtitle; reflexivity. }
  rewrite Hfull in Hpay.
  exists (fst (truncate (effective_max_chars U kw self) full)),
         (snd (truncate (effective_max_chars U kw self) full)).
  split; [exact Hpay|]. clear Hpay.
  pose proof (truncate_spec (effective_max_chars U kw self) full) as Hsp.
  unfold truncate in *. cbn [fst snd].
  destruct (effective_max_chars U kw self <? Z.of_nat (length full))%Z eqn:E.
  - destruct Hsp as (_ & _ & Hlen & _).
    split; [|split].
    + unfold PyStr.slice_to.
      destruct (0 <=? effective_max_chars U kw self)%Z; apply startswith_take.
    + intro H0. rewrite (Hlen H0 eq_refl). lia.
    + intro Hne. subst full. destruct dtitle as [|c d]; [congruence|].
      cbn. rewrite !length_app_string. cbn. lia.
  - apply Z.ltb_ge in E.
    split; [|split].
    + apply startswith_refl.
    + intros _. exact E.
    + intro Hne. subst full. destruct dtitle as [|c d]; [congruence|].
      cbn. rewrite !length_app_string. cbn. lia.
Qed.

Lemma get_content_returns_a_prefix_witness :
  let U := titled (all_well "<p>one two three</p>") in
  let self : Tool U := open_on U tt tt "/ws" in
  let sys : Sys U := {| world := "about:blank" : World U; calls := [] |} in
  let kw := with_max_chars 7 in
  let body := if String.eqb (extract_mode kw) "markdown"
              then _to_markdown "<p>one two three</p>"
              else _normalize (_strip_tags "<p>one two three</p>") in
  let full := match "News" with
              | EmptyString => body
              | _ => "# " ++ "News" ++ PyStr.nl ++ PyStr.nl ++ body
              end in
  exists (truncated : bool) (text : string),
    execute U "get_content" kw self sys
    = (JObj [("url", JStr "about:blank");
             ("title", JStr "Example Domain");
             ("extractor", JStr "readability");
             ("truncated", JBool truncated);
             ("length", JInt (Z.of_nat (length text)));
             ("text", JStr text)],
       self,
       {| world := "about:blank" : World U; calls := [CallTitle; CallContent] |})
    /\ PyStr.startswith text full = true
    /\ ((0 <= effective_max_chars U kw self)%Z ->
        (Z.of_nat (length text) <= effective_max_chars U kw self)%Z)
    /\ ("News" <> EmptyString ->
        length full = length body + length "News" + 4).
Proof.
  intros U self sys kw body full.
  apply (get_content_returns_a_prefix
           U kw self sys tt
           "Example Domain" "<p>one two three</p>" "<p>one two three</p>" "News"
           "about:blank" "about:blank"
           eq_refl eq_refl eq_refl eq_refl eq_refl).
Defined.

(** The same call, run: the heading takes six of the seven characters. *)
Example get_content_title_counts_against_cap :
  let U := titled (all_well "<p>one two three</p>") in
  fst (fst (execute U "get_content" (with_max_chars 7) (open_on U tt tt "/ws")
                    {| world := "about:blank" : World U; calls := [] |}))
  = JObj [("url", JStr "about:blank");
          ("title", JStr "Example Domain");
          ("extractor", JStr "readability");
          ("truncated", JBool true);
          ("length", JInt 7);
          ("text", JStr ("# News" ++ PyStr.nl))].
Proof. vm_compute. reflexivity. Qed.

(** X17: a negative [maxChars] does not cap the text: the answer is
    always marked truncated and its text is the full text without its
    last [-maxChars] characters (empty when the text is that short). *)
Theorem get_content_negative_max_chars_drops_the_tail :
  forall (U : Upstream) (kw : kwargs) (self : Tool U) (sys : Sys U) (p : Page U)
         (title html summary dtitle : string) (w1 w2 : World U) (n : Z),
    _page self = Some p ->
    page_title U p (world sys) = (Ret title, w1) ->
    page_content U p w1 = (Ret html, w2) ->
    doc_summary U html = Ret summary ->
    doc_title U html = Ret dtitle ->
    maxChars kw = Some n -> (n < 0)%Z ->
    let full := with_title dtitle (render (extract_mode kw) summary) in
    let text := PyStr.take (length full - Z.to_nat (- n)) full in
    execute U "get_content" kw self sys
    = (JObj [("url", JStr (page_url U p w1));
             ("title", JStr title);
             ("extractor", JStr "readability");
             ("truncated", JBool true);
             ("length", JInt (Z.of_nat (length full - Z.to_nat (- n))));
             ("text", JStr text)],
       self,
       {| world := w2; calls := (calls sys ++ [CallTitle; CallContent])%list |}).
Proof.
  intros U kw self sys p title html summary dtitle w1 w2 n Hp Ht Hc Hs Hd Hm Hn full text.
  rewrite (get_content_payload U kw self sys p title html summary dtitle w1 w2
                               Hp Ht Hc Hs Hd).
  cbv zeta. fold full.
  assert (Hcap : effective_max_chars U kw self = n).
  { unfold effective_max_chars. rewrite Hm.
    destruct (n =? 0)%Z eqn:E; [apply Z.eqb_eq in E; lia | reflexivity]. }
  rewrite Hcap. unfold truncate.
  assert (Hlt : (n <? Z.of_nat (length full))%Z = true) by (apply Z.ltb_lt; lia).
  rewrite Hlt. cbn [fst snd]. unfold PyStr.slice_to.
  assert (Hneg : (0 <=? n)%Z = false) by (apply Z.leb_gt; lia).
  rewrite Hneg. fold text.
  replace (length text) with (length full - Z.to_nat (- n)); [reflexivity|].
  subst text. rewrite length_take. lia.
Qed.

Lemma get_content_negative_max_chars_drops_the_tail_witness :
  let sc := all_well "0123456789" in
  execute (scripted sc) "get_content" (with_max_chars (-4)) (loaded sc) (blank sc)
  = (JObj [("url", JStr "about:blank");
           ("title", JStr "Example Domain");
           ("extractor", JStr "readability");
           ("truncated", JBool true);
           ("length", JInt 6);
           ("text", JStr "012345")],
     loaded sc,
     {| world := "about:blank" : World (scripted sc); calls := [CallTitle; CallContent] |}).
Proof.
  intro sc.
  apply (get_content_negative_max_chars_drops_the_tail
           (scripted sc) (with_max_chars (-4)) (loaded sc) (blank sc) tt
           "Example Domain" "0123456789" "0123456789" ""
           "about:blank" "about:blank" (-4)%Z
           eq_refl eq_refl eq_refl eq_refl eq_refl eq_refl eq_refl).
Defined.

(** ** The markdown pass on plain text and on single constructs *)

Lemma chr_eq_lt :
  forall c : ascii, Ascii.eqb c "<" = false -> Re.chr_eq true "<" c = false.
Proof.
  intros [[] [] [] [] [] [] [] []] H; try reflexivity; discriminate H.
Qed.

Lemma run_first_char :
  forall (R : Type) (r : Re.regex) (c : ascii) (s : string) (cs : Re.captures)
         (k : string -> Re.captures -> option R),
    first_is "<" r = true ->
    Ascii.eqb c "<" = false ->
    Re.run true r (String c s) cs k = None.
Proof.
  intros R r. induction r; intros c0 s cs k Hf Hc; cbn in Hf; try discriminate Hf.
  - apply Ascii.eqb_eq in Hf. subst c. cbn [Re.run].
    rewrite (chr_eq_lt c0 Hc). reflexivity.
  - cbn [Re.run]. apply IHr1; assumption.
  - cbn [Re.run]. apply IHr; assumption.
Qed.

Lemma run_first_char_empty :
  forall (R : Type) (r : Re.regex) (cs : Re.captures)
         (k : string -> Re.captures -> option R),
    first_is "<" r = true ->
    Re.run true r EmptyString cs k = None.
Proof.
  intros R r. induction r; intros cs k Hf; cbn in Hf; try discriminate Hf.
  - reflexivity.
  - cbn [Re.run]. apply IHr1; assumption.
  - cbn [Re.run]. apply IHr; assumption.
Qed.

Lemma sub_without_lt :
  forall (r : Re.regex) (repl : Re.captures -> string) (s : string),
    first_is "<" r = true ->
    free_of "<" s = true ->
    Re.sub true r repl s = s.
Proof.
  intros r repl s Hf. unfold Re.sub.
  induction s as [|c s IH]; intro Hs.
  - cbn [Re.sub_scan]. unfold Re.match_at.
    rewrite run_first_char_empty by exact Hf. reflexivity.
  - cbn in Hs. apply andb_prop in Hs. destruct Hs as [Hc Hs].
    apply negb_true_iff in Hc.
    cbn [Re.sub_scan]. unfold Re.match_at. rewrite run_first_char by assumption.
    rewrite IH by exact Hs. reflexivity.
Qed.

(** X18: a text in which no "<" occurs goes through the five
    substitutions unchanged, so for such a text the markdown rendering
    is the text rendering. *)
Theorem markdown_of_plain_text :
  forall text : string,
    free_of "<" text = true ->
    Markdown.substituted text = text
    /\ _to_markdown text = _normalize (_strip_tags text)
    /\ render "markdown" text = render "text" text.
Proof.
  intros text Hfree.
  assert (H : Markdown.substituted text = text).
  { unfold Markdown.substituted, Markdown.sub_anchors, Markdown.sub_headings,
      Markdown.sub_items, Markdown.sub_block_ends, Markdown.sub_breaks.
    rewrite (sub_without_lt Markdown.anchor_re _ text eq_refl Hfree).
    rewrite (sub_without_lt Markdown.heading_re _ text eq_refl Hfree).
    rewrite (sub_without_lt Markdown.item_re _ text eq_refl Hfree).
    rewrite (sub_without_lt Markdown.block_end_re _ text eq_refl Hfree).
    apply (sub_without_lt Markdown.break_re _ text eq_refl Hfree). }
  split; [exact H|].
  split; [unfold _to_markdown; rewrite H; reflexivity|].
  unfold render. cbn [String.eqb Ascii.eqb Bool.eqb].
  unfold _to_markdown. rewrite H. reflexivity.
Qed.

Lemma markdown_of_plain_text_witness :
  Markdown.substituted "2 > 1 and a line" = "2 > 1 and a line"
  /\ _to_markdown "2 > 1 and a line" = _normalize (_strip_tags "2 > 1 and a line")
  /\ render "markdown" "2 > 1 and a line" = render "text" "2 > 1 and a line".
Proof.
  apply (markdown_of_plain_text "2 > 1 and a line"). reflexivity.
Defined.

Lemma rep_greedy_through :
  forall (R : Type) (p : ascii -> bool) (a s : string)
         (k : string -> option R) (r : R),
    every p a = true ->
    Re.rep p true 0 s k = Some r ->
    Re.rep p true 0 (a ++ s) k = Some r.
Proof.
  intros R p a s k r. induction a as [|c a IH]; intros Ha Hs.
  - exact Hs.
  - cbn in Ha. apply andb_prop in Ha. destruct Ha as [Hc Ha].
    cbn [append Re.rep]. rewrite Hc. cbn [Nat.pred].
    rewrite (IH Ha Hs). reflexivity.
Qed.

Lemma rep_greedy_stop :
  forall (R : Type) (p : ascii -> bool) (c : ascii) (s : string)
         (k : string -> option R),
    p c = false ->
    Re.rep p true 0 (String c s) k = k (String c s).
Proof. intros R p c s k Hc. cbn [Re.rep]. rewrite Hc. reflexivity. Qed.

Lemma rep_lazy_upto :
  forall (R : Type) (t s : string) (k : string -> option R) (r : R),
    (forall (c : ascii) (x : string), Ascii.eqb c "<" = false -> k (String c x) = None) ->
    free_of "<" t = true ->
    k s = Some r ->
    Re.rep Re.any false 0 (t ++ s) k = Some r.
Proof.
  intros R t s k r Hk. induction t as [|c t IH]; intros Ht Hs.
  - cbn [append]. destruct s as [|c s]; cbn [Re.rep]; rewrite Hs; reflexivity.
  - cbn in Ht. apply andb_prop in Ht. destruct Ht as [Hc Ht].
    apply negb_true_iff in Hc.
    cbn [append Re.rep]. rewrite (Hk c (t ++ s) Hc).
    cbn [Re.any Nat.pred]. apply IH; assumption.
Qed.

Lemma sub_scan_skip :
  forall (icase : bool) (r : Re.regex) (repl : Re.captures -> string) (a rest : string),
    Re.sub_scan icase r repl (a ++ rest) (length a) = Re.sub_scan icase r repl rest 0.
Proof.
  intros icase r repl a rest. induction a as [|c a IH]; [reflexivity | exact IH].
Qed.

Lemma take_app_diff :
  forall a b : string, PyStr.take (length (a ++ b) - length b) (a ++ b) = a.
Proof.
  intros a b. rewrite length_app_string.
  replace (length a + length b - length b) with (length a) by lia.
  induction a as [|c a IH]; cbn; [destruct b; reflexivity | rewrite IH; reflexivity].
Qed.

Lemma take_head :
  forall (c : ascii) (x : string),
    PyStr.take (length (String c x) - length x) (String c x) = String c EmptyString.
Proof.
  intros c x. cbn [length].
  replace (S (length x) - length x) with 1 by lia. reflexivity.
Qed.

Lemma every_none_of :
  forall (a : ascii) (s : string),
    free_of a s = true -> every (Re.none_of [a]) s = true.
Proof.
  intros a s. induction s as [|c s IH]; intro H; [reflexivity|].
  cbn in H. apply andb_prop in H. destruct H as [Hc Hs].
  cbn [every]. rewrite (IH Hs), andb_true_r.
  unfold Re.none_of. cbn [existsb]. rewrite orb_false_r. exact Hc.
Qed.

(** Decide the character tests of a pattern that have become closed. *)
Ltac decide_test t :=
  let v := eval vm_compute in t in
  lazymatch v with
  | true => change t with true
  | false => change t with false
  end.

Ltac closed_tests :=
  repeat (match goal with
          | |- context [Ascii.eqb (PyStr.lower ?a) (PyStr.lower ?b)] =>
              decide_test (Ascii.eqb (PyStr.lower a) (PyStr.lower b))
          | |- context [Re.chr_eq true ?a ?b] => decide_test (Re.chr_eq true a b)
          | |- context [Re.range ?a ?b ?c] => decide_test (Re.range a b c)
          | |- context [Re.none_of ?l ?c] => decide_test (Re.none_of l c)
          | |- context [Re.one_of ?l ?c] => decide_test (Re.one_of l c)
          end; cbv beta iota).

Lemma heading_match :
  forall (R : Type) (n : nat) (attrs t rest : string)
         (k : string -> Re.captures -> option R) (r : R),
    1 <= n <= 6 ->
    free_of ">" attrs = true ->
    free_of "<" t = true ->
    k rest [(2, t); (1, String (level_digit n) EmptyString)] = Some r ->
    Re.run true Markdown.heading_re
           ("<h" ++ String (level_digit n) attrs ++ ">" ++ t
                 ++ "</h" ++ String (level_digit n) ">" ++ rest) [] k
    = Some r.
Proof.
  intros R n attrs t rest k r Hn Ha Ht Hk.
  assert (Hd : n = 1 \/ n = 2 \/ n = 3 \/ n = 4 \/ n = 5 \/ n = 6) by lia.
  destruct Hd as [-> | [-> | [-> | [-> | [-> | ->]]]]].
  all: unfold Markdown.heading_re; cbn -[Nat.sub length PyStr.take Re.rep].
  all: closed_tests.
  all: rewrite !take_head.
  all: apply rep_greedy_through; [apply every_none_of; exact Ha|].
  all: rewrite rep_greedy_stop by reflexivity.
  all: cbv beta iota; closed_tests.
  all: apply rep_lazy_upto;
    [ intros c x Hc; cbv beta iota;
      pose proof (chr_eq_lt c Hc) as Hx; unfold Re.chr_eq in Hx; rewrite Hx; reflexivity
    | exact Ht
    | ].
  all: cbv beta iota; closed_tests.
  all: cbn [Re.eat]; closed_tests.
  all: rewrite take_app_diff; exact Hk.
Qed.

Lemma app_assoc_string :
  forall a b c : string, (a ++ b) ++ c = a ++ (b ++ c).
Proof.
  induction a as [|x a IH]; intros b c; cbn; [reflexivity | rewrite IH; reflexivity].
Qed.

Lemma int_of_level :
  forall n : nat,
    1 <= n <= 6 -> int_of_digits (String (level_digit n) EmptyString) = n.
Proof.
  intros n Hn.
  assert (Hd : n = 1 \/ n = 2 \/ n = 3 \/ n = 4 \/ n = 5 \/ n = 6) by lia.
  destruct Hd as [-> | [-> | [-> | [-> | [-> | ->]]]]]; reflexivity.
Qed.

(** X19: a heading element of level n (1 to 6), with any attributes
    and a text in which no "<" occurs, becomes a line break, n "#"
    characters, a space, the tag-stripped text and a line break; the
    rest of the document is converted after it. *)
Theorem heading_becomes_hashes :
  forall (n : nat) (attrs t rest : string),
    1 <= n <= 6 ->
    free_of ">" attrs = true ->
    free_of "<" t = true ->
    Markdown.sub_headings
      ("<h" ++ String (level_digit n) attrs ++ ">" ++ t
            ++ "</h" ++ String (level_digit n) ">" ++ rest)
    = PyStr.nl ++ PyStr.repeat_char "#" n ++ " " ++ _strip_tags t ++ PyStr.nl
               ++ Markdown.sub_headings rest.
Proof.
  intros n attrs t rest Hn Ha Ht.
  set (d := level_digit n).
  set (inner := "h" ++ String d attrs ++ ">" ++ t ++ "</h" ++ String d ">").
  assert (Hwhole : "<h" ++ String d attrs ++ ">" ++ t ++ "</h" ++ String d ">" ++ rest
                   = String "<" (inner ++ rest)).
  { subst inner. cbn [append]. rewrite !app_assoc_string. cbn [append].
    rewrite !app_assoc_string. reflexivity. }
  assert (Hm : Re.match_at true Markdown.heading_re (String "<" (inner ++ rest))
               = Some (S (length inner), [(2, t); (1, String d EmptyString)])).
  { rewrite <- Hwhole. unfold Re.match_at.
    rewrite (heading_match _ n attrs t rest _
               (length ("<h" ++ String d attrs ++ ">" ++ t ++ "</h" ++ String d ">" ++ rest)
                - length rest,
                [(2, t); (1, String d EmptyString)]) Hn Ha Ht eq_refl).
    rewrite Hwhole. cbn [length]. rewrite length_app_string.
    replace (S (length inner + length rest) - length rest) with (S (length inner)) by lia.
    reflexivity. }
  rewrite Hwhole. unfold Markdown.sub_headings, Re.sub.
  cbn [Re.sub_scan]. rewrite Hm. rewrite sub_scan_skip.
  unfold Markdown.heading_repl. cbn [Re.group Nat.eqb].
  subst d. rewrite (int_of_level n Hn).
  rewrite !app_assoc_string. reflexivity.
Qed.

Lemma heading_becomes_hashes_witness :
  Markdown.sub_headings
    ("<h" ++ String (level_digit 3) " id='s'" ++ ">" ++ "Setup"
          ++ "</h" ++ String (level_digit 3) ">" ++ "<p>next</p>")
  = PyStr.nl ++ PyStr.repeat_char "#" 3 ++ " " ++ _strip_tags "Setup" ++ PyStr.nl
             ++ Markdown.sub_headings "<p>next</p>".
Proof.
  apply (heading_becomes_hashes 3 " id='s'" "Setup" "<p>next</p>");
    [lia | reflexivity | reflexivity].
Defined.

Lemma sub_at_match :
  forall (r : Re.regex) (repl : Re.captures -> string) (c : ascii) (a rest : string)
         (cs : Re.captures),
    Re.match_at true r (String c a ++ rest) = Some (length (String c a), cs) ->
    Re.sub true r repl (String c a ++ rest) = repl cs ++ Re.sub true r repl rest.
Proof.
  intros r repl c a rest cs H. unfold Re.sub.
  cbn [append] in *. cbn [Re.sub_scan]. rewrite H. cbn [length].
  rewrite sub_scan_skip. reflexivity.
Qed.

Lemma item_match :
  forall (R : Type) (attrs t rest : string)
         (k : string -> Re.captures -> option R) (r : R),
    free_of ">" attrs = true ->
    free_of "<" t = true ->
    k rest [(1, t)] = Some r ->
    Re.run true Markdown.item_re ("<li" ++ attrs ++ ">" ++ t ++ "</li>" ++ rest) [] k
    = Some r.
Proof.
  intros R attrs t rest k r Ha Ht Hk.
  unfold Markdown.item_re; cbn -[Nat.sub length PyStr.take Re.rep].
  closed_tests.
  apply rep_greedy_through; [apply every_none_of; exact Ha|].
  rewrite rep_greedy_stop by reflexivity.
  cbv beta iota; closed_tests.
  apply rep_lazy_upto;
    [ intros c x Hc; cbv beta iota;
      pose proof (chr_eq_lt c Hc) as Hx; unfold Re.chr_eq in Hx; rewrite Hx; reflexivity
    | exact Ht
    | ].
  cbv beta iota; closed_tests.
  change (String "<" (String "/" (String "l" (String "i" (String ">" rest)))))
    with ("</li>" ++ rest).
  rewrite take_app_diff. exact Hk.
Qed.

(** X20: a list item element, with any attributes and a text in which
    no "<" occurs, becomes a line break, "- " and the tag-stripped
    text; the rest of the document is converted after it. *)
Theorem list_item_becomes_dash :
  forall attrs t rest : string,
    free_of ">" attrs = true ->
    free_of "<" t = true ->
    Markdown.sub_items ("<li" ++ attrs ++ ">" ++ t ++ "</li>" ++ rest)
    = PyStr.nl ++ "- " ++ _strip_tags t ++ Markdown.sub_items rest.
Proof.
  intros attrs t rest Ha Ht.
  set (inner := "li" ++ attrs ++ ">" ++ t ++ "</li>").
  assert (Hwhole : "<li" ++ attrs ++ ">" ++ t ++ "</li>" ++ rest
                   = String "<" inner ++ rest).
  { subst inner. cbn [append]. rewrite !app_assoc_string. cbn [append].
    rewrite !app_assoc_string. reflexivity. }
  assert (Hm : Re.match_at true Markdown.item_re (String "<" inner ++ rest)
               = Some (length (String "<" inner), [(1, t)])).
  { rewrite <- Hwhole. unfold Re.match_at.
    rewrite (item_match _ attrs t rest _
               (length ("<li" ++ attrs ++ ">" ++ t ++ "</li>" ++ rest) - length rest,
                [(1, t)]) Ha Ht eq_refl).
    rewrite Hwhole. rewrite length_app_string.
    replace (length (String "<" inner) + length rest - length rest)
      with (length (String "<" inner)) by lia.
    reflexivity. }
  rewrite Hwhole. unfold Markdown.sub_items.
  rewrite (sub_at_match _ _ _ _ _ _ Hm).
  unfold Markdown.item_repl. cbn [Re.group Nat.eqb].
  rewrite !app_assoc_string. reflexivity.
Qed.

Lemma list_item_becomes_dash_witness :
  Markdown.sub_items ("<li" ++ " class='x'" ++ ">" ++ "milk" ++ "</li>" ++ "<li>eggs</li>")
  = PyStr.nl ++ "- " ++ _strip_tags "milk" ++ Markdown.sub_items "<li>eggs</li>".
Proof.
  apply (list_item_becomes_dash " class='x'" "milk" "<li>eggs</li>"); reflexivity.
Defined.

(** X21: a closing tag of a paragraph, a div, a section or an article,
    in lower or upper case, becomes two line breaks; the rest of the
    document is converted after it. *)
Theorem block_end_becomes_empty_line :
  forall tag rest : string,
    In tag ["p"; "div"; "section"; "article"; "P"; "DIV"; "SECTION"; "ARTICLE"] ->
    Markdown.sub_block_ends ("</" ++ tag ++ ">" ++ rest)
    = PyStr.nl ++ PyStr.nl ++ Markdown.sub_block_ends rest.
Proof.
  intros tag rest Hin.
  assert (Hm : exists cs,
             Re.match_at true Markdown.block_end_re (String "<" ("/" ++ tag ++ ">") ++ rest)
             = Some (length (String "<" ("/" ++ tag ++ ">")), cs)).
  { cbn in Hin.
    destruct Hin as [<- | [<- | [<- | [<- | [<- | [<- | [<- | [<- | []]]]]]]]];
      unfold Re.match_at, Markdown.block_end_re;
      cbn -[Nat.sub length PyStr.take]; closed_tests;
      eexists;
      match goal with
      | |- Some (?l, _) = Some (?n, _) =>
          replace l with n by (cbn [length]; lia); reflexivity
      end. }
  destruct Hm as [cs Hm].
  replace ("</" ++ tag ++ ">" ++ rest) with (String "<" ("/" ++ tag ++ ">") ++ rest)
    by (cbn [append]; rewrite !app_assoc_string; reflexivity).
  unfold Markdown.sub_block_ends.
  rewrite (sub_at_match _ _ _ _ _ _ Hm).
  rewrite !app_assoc_string. reflexivity.
Qed.

Lemma block_end_becomes_empty_line_witness :
  Markdown.sub_block_ends ("</" ++ "DIV" ++ ">" ++ "after")
  = PyStr.nl ++ PyStr.nl ++ Markdown.sub_block_ends "after".
Proof.
  apply (block_end_becomes_empty_line "DIV" "after").
  cbn. tauto.
Defined.

(** X22: a line break or rule tag, in lower or upper case, with any
    white space after its name and with or without the closing slash,
    becomes one line break; the rest of the document is converted
    after it. *)
Theorem break_becomes_line_break :
  forall tag blanks slash rest : string,
    In tag ["br"; "hr"; "BR"; "HR"] ->
    every Re.space blanks = true ->
    In slash [EmptyString; "/"] ->
    Markdown.sub_breaks ("<" ++ tag ++ blanks ++ slash ++ ">" ++ rest)
    = PyStr.nl ++ Markdown.sub_breaks rest.
Proof.
  intros tag blanks slash rest Htag Hsp Hslash.
  assert (Hm : exists cs,
             Re.match_at true Markdown.break_re
                         (String "<" (tag ++ blanks ++ slash ++ ">") ++ rest)
             = Some (length (String "<" (tag ++ blanks ++ slash ++ ">")), cs)).
  { cbn in Htag, Hslash.
    destruct Htag as [<- | [<- | [<- | [<- | []]]]];
      destruct Hslash as [<- | [<- | []]];
      unfold Re.match_at, Markdown.break_re;
      cbn [append]; rewrite ?app_assoc_string; cbn [append];
      cbn -[Nat.sub length PyStr.take Re.rep]; closed_tests;
      eexists;
      (erewrite rep_greedy_through;
       [ | exact Hsp
         | rewrite rep_greedy_stop by reflexivity;
           cbv beta iota; closed_tests; reflexivity ]);
      cbv beta iota;
      match goal with
      | |- Some (?l, _) = Some (?n, _) =>
          replace l with n
            by (cbn [length]; rewrite !length_app_string; cbn [length]; lia);
          reflexivity
      end. }
  destruct Hm as [cs Hm].
  replace ("<" ++ tag ++ blanks ++ slash ++ ">" ++ rest)
    with (String "<" (tag ++ blanks ++ slash ++ ">") ++ rest)
    by (cbn [append]; rewrite !app_assoc_string; reflexivity).
  unfold Markdown.sub_breaks.
  rewrite (sub_at_match _ _ _ _ _ _ Hm).
  reflexivity.
Qed.

Lemma break_becomes_line_break_witness :
  Markdown.sub_breaks ("<" ++ "br" ++ "  " ++ "/" ++ ">" ++ "next line")
  = PyStr.nl ++ Markdown.sub_breaks "next line".
Proof.
  apply (break_becomes_line_break "br" "  " "/" "next line");
    [cbn; tauto | reflexivity | cbn; tauto].
Defined.

Lemma anchor_re_split :
  Markdown.anchor_re
  = Re.Cat (Re.lit "<a")
           (Re.Cat (Re.Rep 1 true Re.space)
                   (Re.Cat (Re.Rep 0 true (Re.none_of [gt])) href_re)).
Proof. reflexivity. Qed.

Lemma rep_greedy_gives_back :
  forall (R : Type) (p : ascii -> bool) (a s : string) (k : string -> option R),
    every p a = true ->
    fails_on_tails k a s ->
    Re.rep p true 0 s k = k s ->
    Re.rep p true 0 (a ++ s) k = k (a ++ s).
Proof.
  intros R p a s k. induction a as [|c a IH]; intros Ha Hf Hs.
  - exact Hs.
  - cbn in Ha. apply andb_prop in Ha. destruct Ha as [Hc Ha].
    destruct Hf as [Hhere Hf].
    cbn [append Re.rep]. rewrite Hc. cbn [Nat.pred].
    rewrite (IH Ha Hf Hs), Hhere. reflexivity.
Qed.

Lemma rep_greedy_through_one :
  forall (R : Type) (p : ascii -> bool) (c : ascii) (a s : string)
         (k : string -> option R) (r : R),
    every p (String c a) = true ->
    Re.rep p true 0 s k = Some r ->
    Re.rep p true 1 (String c a ++ s) k = Some r.
Proof.
  intros R p c a s k r Ha Hs.
  cbn in Ha. apply andb_prop in Ha. destruct Ha as [Hc Ha].
  cbn [append Re.rep]. rewrite Hc. cbn [Nat.pred].
  rewrite (rep_greedy_through R p a s k r Ha Hs). reflexivity.
Qed.

Lemma chr_eq_equals :
  forall c : ascii, Ascii.eqb c "=" = false -> Re.chr_eq true "=" c = false.
Proof.
  intros [[] [] [] [] [] [] [] []] H; try reflexivity; discriminate H.
Qed.

Lemma href_fails_inside :
  forall (R : Type) (q : ascii) (w s : string) (cs : Re.captures)
         (k : string -> Re.captures -> option R),
    In q [dquote; squote] ->
    free_of "=" w = true ->
    Re.run true href_re (w ++ String q s) cs k = None.
Proof.
  intros R q w s cs k Hq Hw.
  assert (Hquote : forall x : ascii, In x ["h"; "r"; "e"; "f"; "="]%char ->
                                     Re.chr_eq true x q = false).
  { intros x Hx. cbn in Hq, Hx.
    destruct Hq as [<- | [<- | []]];
      destruct Hx as [<- | [<- | [<- | [<- | [<- | []]]]]]; reflexivity. }
  unfold href_re. cbn [Re.seq Re.lit Re.run].
  destruct w as [|c1 w]; cbn [append].
  { rewrite Hquote by (cbn; tauto). reflexivity. }
  destruct (Re.chr_eq true "h" c1); [|reflexivity].
  destruct w as [|c2 w]; cbn [append].
  { rewrite Hquote by (cbn; tauto). reflexivity. }
  destruct (Re.chr_eq true "r" c2); [|reflexivity].
  destruct w as [|c3 w]; cbn [append].
  { rewrite Hquote by (cbn; tauto). reflexivity. }
  destruct (Re.chr_eq true "e" c3); [|reflexivity].
  destruct w as [|c4 w]; cbn [append].
  { rewrite Hquote by (cbn; tauto). reflexivity. }
  destruct (Re.chr_eq true "f" c4); [|reflexivity].
  destruct w as [|c5 w]; cbn [append].
  { rewrite Hquote by (cbn; tauto). reflexivity. }
  cbn in Hw. repeat (apply andb_prop in Hw; destruct Hw as [? Hw]).
  match goal with
  | H : negb (Ascii.eqb c5 "=") = true |- _ =>
      apply negb_true_iff in H; rewrite (chr_eq_equals c5 H)
  end.
  reflexivity.
Qed.

Lemma take_cons_diff :
  forall (c : ascii) (u z : string),
    PyStr.take (length (String c (u ++ z)) - length z) (String c (u ++ z)) = String c u.
Proof.
  intros c u z. change (String c (u ++ z)) with (String c u ++ z).
  apply take_app_diff.
Qed.

Lemma every_none_of_quotes :
  forall s : string,
    free_of dquote s = true -> free_of squote s = true ->
    every (Re.none_of [dquote; squote]) s = true.
Proof.
  induction s as [|c s IH]; intros Hd Hs; [reflexivity|].
  cbn [free_of] in Hd, Hs. apply andb_prop in Hd. apply andb_prop in Hs.
  destruct Hd as [Hd1 Hd2]. destruct Hs as [Hs1 Hs2].
  cbn [every]. rewrite (IH Hd2 Hs2), andb_true_r.
  unfold Re.none_of. cbn [existsb]. rewrite orb_false_r.
  apply negb_true_iff in Hd1. apply negb_true_iff in Hs1.
  rewrite Hd1, Hs1. reflexivity.
Qed.

Lemma href_match :
  forall (R : Type) (q1 q2 c : ascii) (u t rest : string) (cs : Re.captures)
         (k : string -> Re.captures -> option R) (r : R),
    In q1 [dquote; squote] -> In q2 [dquote; squote] ->
    free_of dquote (String c u) = true -> free_of squote (String c u) = true ->
    free_of "<" t = true ->
    k rest ((2, t) :: (1, String c u) :: cs) = Some r ->
    Re.run true href_re
           ("href=" ++ String q1 (String c u ++ String q2 (">" ++ t ++ "</a>" ++ rest)))
           cs k
    = Some r.
Proof.
  intros R q1 q2 c u t rest cs k r Hq1 Hq2 Hd Hs Ht Hk.
  pose proof (every_none_of_quotes _ Hd Hs) as Hu.
  cbn in Hq1, Hq2.
  destruct Hq1 as [<- | [<- | []]]; destruct Hq2 as [<- | [<- | []]].
  all: unfold href_re; cbn -[Nat.sub length PyStr.take Re.rep].
  all: closed_tests.
  all: apply rep_greedy_through_one; [exact Hu|].
  all: rewrite rep_greedy_stop by reflexivity.
  all: cbv beta iota; closed_tests.
  all: rewrite rep_greedy_stop by reflexivity.
  all: cbv beta iota; closed_tests.
  all: apply rep_lazy_upto;
    [ intros c0 x Hc; cbv beta iota;
      pose proof (chr_eq_lt c0 Hc) as Hx; unfold Re.chr_eq in Hx; rewrite Hx; reflexivity
    | exact Ht
    | ].
  all: cbv beta iota; closed_tests.
  all: change (String "<" (String "/" (String "a" (String ">" rest))))
         with ("</a>" ++ rest).
  all: rewrite take_app_diff, take_cons_diff; exact Hk.
Qed.

Lemma href_fails_at :
  forall (R : Type) (x : ascii) (s : string) (cs : Re.captures)
         (k : string -> Re.captures -> option R),
    Re.chr_eq true "h" x = false ->
    Re.run true href_re (String x s) cs k = None.
Proof.
  intros R x s cs k Hx. unfold href_re. cbn [Re.seq Re.lit Re.run].
  rewrite Hx. reflexivity.
Qed.

Lemma href_fails_on_tails :
  forall (R : Type) (q : ascii) (w s : string) (k : string -> Re.captures -> option R),
    In q [dquote; squote] ->
    free_of "=" w = true ->
    fails_on_tails (fun s' => Re.run true href_re s' [] k)
                   (w ++ String q EmptyString) (String ">" s).
Proof.
  intros R q w s k Hq. induction w as [|c w IH]; intro Hw.
  - cbn [append fails_on_tails]. split; [|exact I].
    apply href_fails_at. reflexivity.
  - cbn [free_of] in Hw. apply andb_prop in Hw. destruct Hw as [_ Hw].
    cbn [append fails_on_tails]. split; [|exact (IH Hw)].
    rewrite app_assoc_string. cbn [append].
    apply href_fails_inside; assumption.
Qed.

Lemma every_app :
  forall (p : ascii -> bool) (a b : string),
    every p a = true -> every p b = true -> every p (a ++ b) = true.
Proof.
  intros p a b Ha Hb. induction a as [|c a IH]; [exact Hb|].
  cbn [every] in Ha. apply andb_prop in Ha. destruct Ha as [Hc Ha].
  cbn [append every]. rewrite Hc, (IH Ha). reflexivity.
Qed.

Lemma free_of_app :
  forall (a : ascii) (x y : string),
    free_of a (x ++ y) = free_of a x && free_of a y.
Proof.
  intros a x y. induction x as [|c x IH]; [reflexivity|].
  cbn [append free_of]. rewrite IH, andb_assoc. reflexivity.
Qed.

Lemma anchor_match :
  forall (R : Type) (b q1 q2 c : ascii) (blanks u t rest : string)
         (k : string -> Re.captures -> option R) (r : R),
    every Re.space (String b blanks) = true ->
    In q1 [dquote; squote] -> In q2 [dquote; squote] ->
    free_of dquote (String c u) = true -> free_of squote (String c u) = true ->
    free_of ">" (String c u) = true -> free_of "=" (String c u) = true ->
    free_of "<" t = true ->
    k rest [(2, t); (1, String c u)] = Some r ->
    Re.run true Markdown.anchor_re
           ("<a" ++ String b blanks
                 ++ "href=" ++ String q1 (String c u ++ String q2 (">" ++ t ++ "</a>" ++ rest)))
           [] k
    = Some r.
Proof.
  intros R b q1 q2 c blanks u t rest k r Hb Hq1 Hq2 Hd Hs Hgt Heq Ht Hk.
  set (tail := ">" ++ t ++ "</a>" ++ rest).
  set (attr := "href=" ++ String q1 (String c u ++ String q2 EmptyString)).
  assert (Hsplit : "href=" ++ String q1 (String c u ++ String q2 tail) = attr ++ tail).
  { subst attr. cbn [append]. rewrite app_assoc_string. reflexivity. }
  assert (Hattr : every (Re.none_of [gt]) attr = true).
  { apply every_none_of. unfold gt. subst attr.
    pose proof Hgt as Hgt'. cbn [free_of] in Hgt'. apply andb_prop in Hgt'.
    destruct Hgt' as [Hc Hu].
    cbn in Hq1, Hq2.
    destruct Hq1 as [<- | [<- | []]]; destruct Hq2 as [<- | [<- | []]];
      cbn [append free_of]; rewrite free_of_app, Hc, Hu; reflexivity. }
  rewrite anchor_re_split.
  cbn -[Nat.sub length PyStr.take Re.rep href_re]. closed_tests.
  apply rep_greedy_through_one; [exact Hb|].
  rewrite rep_greedy_stop by reflexivity.
  match goal with
  | |- Re.rep _ true 0 ?x _ = _ =>
      replace x with (attr ++ tail)
        by (rewrite <- Hsplit; subst tail; reflexivity)
  end.
  rewrite rep_greedy_gives_back.
  - rewrite <- Hsplit. subst tail.
    apply href_match; assumption.
  - exact Hattr.
  - subst attr tail. cbn [append fails_on_tails].
    repeat (split; [apply href_fails_at; reflexivity|]).
    split.
    + cbn in Hq1. destruct Hq1 as [<- | [<- | []]]; apply href_fails_at; reflexivity.
    + split.
      * change (String c (u ++ String q2 EmptyString) ++ String ">" (t ++ "</a>" ++ rest))
          with ((String c u ++ String q2 EmptyString) ++ String ">" (t ++ "</a>" ++ rest)).
        rewrite app_assoc_string. cbn [append].
        apply (href_fails_inside _ q2 (String c u)); assumption.
      * change (String c (u ++ String q2 EmptyString))
          with (String c u ++ String q2 EmptyString).
        apply (href_fails_on_tails _ q2 (String c u)); assumption.
  - subst tail. cbn [append]. apply rep_greedy_stop. reflexivity.
Qed.

(** X23: an anchor whose only attribute is the href, quoted with either
    quotation mark on either side, becomes "[text](url)" with the
    tag-stripped text; the rest of the document is converted after it.
    The URL is not empty and holds no quotation mark, no ">" and no "=";
    no "<" occurs in the text. *)
Theorem anchor_becomes_link :
  forall (q1 q2 : ascii) (blanks u t rest : string),
    blanks <> EmptyString -> every Re.space blanks = true ->
    In q1 [dquote; squote] -> In q2 [dquote; squote] ->
    u <> EmptyString ->
    free_of dquote u = true -> free_of squote u = true ->
    free_of ">" u = true -> free_of "=" u = true ->
    free_of "<" t = true ->
    Markdown.sub_anchors
      ("<a" ++ blanks ++ "href=" ++ String q1 u ++ String q2 ">" ++ t ++ "</a>" ++ rest)
    = "[" ++ _strip_tags t ++ "](" ++ u ++ ")" ++ Markdown.sub_anchors rest.
Proof.
  intros q1 q2 blanks u t rest Hbne Hb Hq1 Hq2 Hune Hd Hs Hgt Heq Ht.
  destruct blanks as [|b blanks]; [congruence|].
  destruct u as [|c u]; [congruence|].
  set (inner := "a" ++ String b blanks ++ "href="
                    ++ String q1 (String c u) ++ String q2 ">" ++ t ++ "</a>").
  assert (Hwhole : "<a" ++ String b blanks ++ "href=" ++ String q1 (String c u)
                        ++ String q2 ">" ++ t ++ "</a>" ++ rest
                   = String "<" inner ++ rest).
  { subst inner. cbn [append]. rewrite !app_assoc_string. cbn [append].
    rewrite !app_assoc_string. cbn [append]. rewrite !app_assoc_string. reflexivity. }
  assert (Hm : Re.match_at true Markdown.anchor_re (String "<" inner ++ rest)
               = Some (length (String "<" inner), [(2, t); (1, String c u)])).
  { rewrite <- Hwhole. unfold Re.match_at.
    rewrite (anchor_match _ b q1 q2 c blanks u t rest _
               (length ("<a" ++ String b blanks ++ "href=" ++ String q1 (String c u)
                             ++ String q2 ">" ++ t ++ "</a>" ++ rest) - length rest,
                [(2, t); (1, String c u)])
               Hb Hq1 Hq2 Hd Hs Hgt Heq Ht eq_refl).
    rewrite Hwhole. rewrite length_app_string.
    replace (length (String "<" inner) + length rest - length rest)
      with (length (String "<" inner)) by lia.
    reflexivity. }
  rewrite Hwhole. unfold Markdown.sub_anchors.
  rewrite (sub_at_match _ _ _ _ _ _ Hm).
  unfold Markdown.anchor_repl. cbn [Re.group Nat.eqb].
  rewrite !app_assoc_string. reflexivity.
Qed.

Lemma anchor_becomes_link_witness :
  Markdown.sub_anchors
    ("<a" ++ " " ++ "href=" ++ String squote "http://x/y" ++ String squote ">"
          ++ "world" ++ "</a>" ++ "!")
  = "[" ++ _strip_tags "world" ++ "](" ++ "http://x/y" ++ ")" ++ Markdown.sub_anchors "!".
Proof.
  apply (anchor_becomes_link squote squote " " "http://x/y" "world" "!");
    solve [discriminate | reflexivity | cbn; tauto].
Defined.

(** ** Reading the content when a read fails *)

(** X24: [get_content] reads the title of the page, then its HTML, then
    runs the extractor for the summary and for the title; the first of
    these that raises ends the call with its message as the error
    payload, nothing further is called, and the tool is unchanged. *)
Theorem get_content_stops_at_first_failure :
  forall (U : Upstream) (kw : kwargs) (self : Tool U) (sys : Sys U) (p : Page U) (e : exn),
    _page self = Some p ->
    (forall w1 : World U,
        page_title U p (world sys) = (Raise e, w1) ->
        execute U "get_content" kw self sys
        = (JObj [("error", JStr (str e))], self,
           {| world := w1; calls := (calls sys ++ [CallTitle; Raised e])%list |}))
    /\ (forall (title : string) (w1 w2 : World U),
           page_title U p (world sys) = (Ret title, w1) ->
           page_content U p w1 = (Raise e, w2) ->
           execute U "get_content" kw self sys
           = (JObj [("error", JStr (str e))], self,
              {| world := w2;
                 calls := (calls sys ++ [CallTitle; CallContent; Raised e])%list |}))
    /\ (forall (title html : string) (w1 w2 : World U),
           page_title U p (world sys) = (Ret title, w1) ->
           page_content U p w1 = (Ret html, w2) ->
           doc_summary U html = Raise e ->
           execute U "get_content" kw self sys
           = (JObj [("error", JStr (str e))], self,
              {| world := w2;
                 calls := (calls sys ++ [CallTitle; CallContent; Raised e])%list |}))
    /\ (forall (title html summary : string) (w1 w2 : World U),
           page_title U p (world sys) = (Ret title, w1) ->
           page_content U p w1 = (Ret html, w2) ->
           doc_summary U html = Ret summary ->
           doc_title U html = Raise e ->
           execute U "get_content" kw self sys
           = (JObj [("error", JStr (str e))], self,
              {| world := w2;
                 calls := (calls sys ++ [CallTitle; CallContent; Raised e])%list |})).
Proof.
  intros U kw self sys p e Hp.
  unfold execute, dispatch. cbn [String.eqb Ascii.eqb Bool.eqb].
  unfold _get_content, bind, get_self, await, peek, lift, ret. rewrite Hp.
  repeat split.
  - intros w1 Ht. rewrite Ht. cbn [recorded world calls].
    rewrite <- app_assoc. reflexivity.
  - intros title w1 w2 Ht Hc. rewrite Ht. cbn [recorded world calls]. rewrite Hc.
    cbn [recorded world calls]. rewrite <- !app_assoc. reflexivity.
  - intros title html w1 w2 Ht Hc Hs. rewrite Ht. cbn [recorded world calls].
    rewrite Hc, Hs. cbn [recorded world calls]. rewrite <- !app_assoc. reflexivity.
  - intros title html summary w1 w2 Ht Hc Hs Hd. rewrite Ht. cbn [recorded world calls].
    rewrite Hc, Hs, Hd. cbn [recorded world calls]. rewrite <- !app_assoc. reflexivity.
Qed.

Lemma get_content_stops_at_first_failure_witness :
  let U := unparseable (all_well "") in
  let self : Tool U := open_on U tt tt "/ws" in
  let sys : Sys U := {| world := "about:blank" : World U; calls := [] |} in
  execute U "get_content" no_kwargs self sys
  = (JObj [("error", JStr "Document is empty")], self,
     {| world := "about:blank" : World U;
        calls := [CallTitle; CallContent; Raised (Exception "Document is empty")] |}).
Proof.
  intros U self sys.
  destruct (get_content_stops_at_first_failure
              U no_kwargs self sys tt (Exception "Document is empty") eq_refl)
    as (_ & _ & H & _).
  apply (H "Example Domain" "" "about:blank" "about:blank"); reflexivity.
Defined.
